(** * Weather backend: ingestion, upsert store, query layer and request
      validation, embedded from [src/services/weather_service.py],
      [src/models/weather.py] and [src/routes/weather.py]. *)

From Stdlib Require Import ZArith List Bool String Ascii Lia.
From Stdlib Require Import Permutation Sorted.
From Stdlib Require Import Floats.SpecFloat.
Import ListNotations.
Open Scope Z_scope.

(* ================================================================= *)
(** ** Python values used by the service *)

(** A Python [float] is an IEEE-754 binary64 value. *)
Definition float := spec_float.
Definition prec : Z := 53.
Definition emax : Z := 1024.

(** The float denoted by an integer literal such as [90] or [-180]. *)
Definition float_of_Z (z : Z) : float := binary_normalize prec emax z 0 false.

(** Python's [x <= y] on floats (false as soon as one side is NaN). *)
Definition float_le (x y : float) : bool := SFleb x y.

(** SQL [column = value] on a [Float] column.  It is numeric equality
    ([-0.0 = 0.0]), and it does not hold between a number and a NaN.  Only
    for a row that itself holds a NaN, which the configured database cannot
    store (see [stored]), is it taken to hold against a NaN, so that the
    comparison is reflexive on every float. *)
Definition column_eq (x y : float) : bool :=
  match x, y with
  | S754_nan, S754_nan => true
  | _, _ => SFeqb x y
  end.

(** What a [Float] column gives back for a value written to it.  The
    configured database is SQLite ([config.py]); it keeps a float as it
    is, except that a zero is stored without its sign: [-0.0] is read back
    as [0.0].  A NaN is not stored at all: it is bound as NULL, which the
    NOT NULL columns of the model class reject, so the flush that carries
    it raises (one of the database errors of the service below). *)
Definition stored (x : float) : float :=
  match x with
  | S754_zero _ => S754_zero false
  | _ => x
  end.

(** A naive [datetime], counted in microseconds from 1970-01-01. *)
Definition datetime := Z.

(** [timedelta(hours=h)] in microseconds. *)
Definition timedelta_hours (h : Z) : Z := h * 3600000000.

(** [s.replace(old, new)] for one-character patterns. *)
Fixpoint replace (old new : ascii) (s : string) : string :=
  match s with
  | EmptyString => EmptyString
  | String c s' => String (if Ascii.eqb c old then new else c) (replace old new s')
  end.

(** Exceptions that leave the modelled functions.  [SQLAlchemyError]
    stands for every exception of the database layer ([IntegrityError],
    [OperationalError] and the other classes of [sqlalchemy.exc]); the
    model does not tell them apart. *)
Inductive exn : Type :=
| IndexError
| KeyError
| TypeError
| ValueError (msg : string)
| RequestException (msg : string)
| SQLAlchemyError
| Exception (msg : string).

Inductive outcome (A : Type) : Type :=
| Return (a : A)
| Raise (e : exn).
Arguments Return {A} a.
Arguments Raise {A} e.

(* ================================================================= *)
(** ** models/weather.py *)

Record WeatherData : Type := mkWeatherData {
  id : Z;
  timestamp : datetime;
  latitude : float;
  longitude : float;
  temperature_2m : float;
  relative_humidity_2m : float;
  created_at : datetime
}.

(** Modelled from the spec: the persistence handle [db], which
    [src/models/user.py] declares and which is not among the sources.  It is
    the database as one session sees it: [table] holds the committed rows,
    [session] the rows inside the open transaction (the session flushes
    before each query, so pending inserts and updates are part of what a
    lookup sees).  Both are in row order, and a row is what the database
    holds of it: the primary key and the creation time given at its INSERT,
    and what the [Float] columns keep of the numbers written. *)
Record db_state : Type := mkDb {
  table : list WeatherData;
  session : list WeatherData
}.

(** [db.session.commit()] and [db.session.rollback()]. *)
Definition commit (db : db_state) : db_state :=
  {| table := session db; session := session db |}.
Definition rollback (db : db_state) : db_state :=
  {| table := table db; session := table db |}.

(** The key of the upsert: [(timestamp, latitude, longitude)]. *)
Definition key_matches (ts : datetime) (lat lon : float) (r : WeatherData) : bool :=
  (timestamp r =? ts) && column_eq (latitude r) lat && column_eq (longitude r) lon.

Definition same_triple (r1 r2 : WeatherData) : bool :=
  key_matches (timestamp r2) (latitude r2) (longitude r2) r1.

(** [WeatherData.query.filter_by(timestamp=, latitude=, longitude=).first()] *)
Definition query_first (ts : datetime) (lat lon : float)
    (rows : list WeatherData) : option WeatherData :=
  find (key_matches ts lat lon) rows.

(** Assigning the two measurement attributes of a loaded object; the flush
    writes them to the row with the object's primary key, and the row then
    holds what the two [Float] columns keep of them. *)
Definition set_measurements (t h : float) (r : WeatherData) : WeatherData :=
  {| id := id r; timestamp := timestamp r;
     latitude := latitude r; longitude := longitude r;
     temperature_2m := stored t; relative_humidity_2m := stored h;
     created_at := created_at r |}.

Definition update_row (pk : Z) (t h : float) (rows : list WeatherData)
    : list WeatherData :=
  map (fun r => if id r =? pk then set_measurements t h r else r) rows.

(** The primary key given to an inserted row: one more than the largest
    key in use. *)
Definition next_id (rows : list WeatherData) : Z :=
  fold_right (fun r m => Z.max (id r + 1) m) 1 rows.

(** [db.session.add(WeatherData(...))] and the INSERT of the flush.  The
    row gets the next primary key, the four [Float] columns keep what they
    keep of the given values, and [created_at] is filled by the column
    default [datetime.utcnow], which is called for this INSERT: [utcnow pk]
    is the clock as read for the row that gets primary key [pk], so every
    inserted row has a clock reading of its own. *)
Definition add_row (ts : datetime) (lat lon t h : float)
    (utcnow : Z -> datetime) (rows : list WeatherData) : list WeatherData :=
  rows ++ [ {| id := next_id rows; timestamp := ts;
               latitude := stored lat; longitude := stored lon;
               temperature_2m := stored t; relative_humidity_2m := stored h;
               created_at := utcnow (next_id rows) |} ].

(** The objects of [weather_records] are read after the commit, so each one
    shows the row its primary key then has. *)
Definition row_of (rows : list WeatherData) (pk : Z) : option WeatherData :=
  find (fun r => id r =? pk) rows.

Fixpoint rows_of (rows : list WeatherData) (pks : list Z) : list WeatherData :=
  match pks with
  | [] => []
  | pk :: pks' =>
      match row_of rows pk with
      | Some r => r :: rows_of rows pks'
      | None => rows_of rows pks'
      end
  end.

(** [ORDER BY timestamp ASC]: a stable insertion sort over the row order
    (rows with one timestamp stay in row order, as the index on
    [timestamp] yields them). *)
Fixpoint insert_by_timestamp (r : WeatherData) (l : list WeatherData)
    : list WeatherData :=
  match l with
  | [] => [r]
  | x :: l' =>
      if timestamp r <=? timestamp x then r :: l
      else x :: insert_by_timestamp r l'
  end.

Definition order_by_timestamp (l : list WeatherData) : list WeatherData :=
  fold_right insert_by_timestamp [] l.

(* ================================================================= *)
(** ** services/weather_service.py *)

(** The [hourly] part of an archive response, with the three lists that
    the upsert reads: strings for the hours, a number or null for each
    measurement. *)
Record hourly : Type := mkHourly {
  timestamps : list string;
  temperatures : list (option float);
  humidities : list (option float)
}.

Module WeatherService.
Section Service.

(** [datetime.fromisoformat]: [None] stands for its [ValueError], and
    [isoformat_error s] is the text of that exception for the rejected
    string [s] (it names the string). *)
Variable fromisoformat : string -> option datetime.
Variable isoformat_error : string -> string.

(** What the database answers to the lookup made at index [i] of the
    series: [lookup_error i = true] when it raises.  The query first
    flushes the pending INSERT or UPDATE of the hours before, so this is
    where a row that the database refuses surfaces (under SQLite, a NaN
    among the values written so far: [IntegrityError]), besides a locked
    or unreachable database ([OperationalError]). *)
Variable lookup_error : nat -> bool.

Section Walk.
Variables temps hums : list (option float).
Variables lat lon : float.
Variable utcnow : Z -> datetime.

(** The body of [for i, timestamp_str in enumerate(timestamps)], from
    index [i] on; [rows] is the session and [touched] the primary keys
    of [weather_records] so far.  The lookup stands outside the [try]
    block: when it raises, its exception leaves the function as it is.
    A raise of any kind ends the function before [commit] and [rollback]
    are reached, with the session as it is at that point. *)
Fixpoint walk (i : nat) (tss : list string) (rows : list WeatherData)
    (touched : list Z) : list WeatherData * outcome (list Z) :=
  match tss with
  | [] => (rows, Return touched)
  | timestamp_str :: rest =>
      match fromisoformat (replace "T" " " timestamp_str) with
      | None =>
          (rows,
           Raise (ValueError (isoformat_error (replace "T" " " timestamp_str))))
      | Some ts =>
          match nth_error temps i with
          | None => (rows, Raise IndexError)
          | Some None => walk (S i) rest rows touched
          | Some (Some t) =>
              match nth_error hums i with
              | None => (rows, Raise IndexError)
              | Some None => walk (S i) rest rows touched
              | Some (Some h) =>
                  if lookup_error i then (rows, Raise SQLAlchemyError)
                  else
                  match query_first ts lat lon rows with
                  | Some existing_record =>
                      walk (S i) rest
                           (update_row (id existing_record) t h rows)
                           (touched ++ [id existing_record])
                  | None =>
                      walk (S i) rest
                           (add_row ts lat lon t h utcnow rows)
                           (touched ++ [next_id rows])
                  end
              end
          end
      end
  end.
End Walk.

(** [process_and_store_weather_data].  [commit_error] is what the database
    answers to the commit: [None] when it succeeds, [Some msg] when it
    raises an exception [e] with [str(e) = msg]; [utcnow] is the clock of
    the [created_at] default.  Only the commit stands inside the [try]
    block. *)
Definition process_and_store_weather_data
    (commit_error : option string) (utcnow : Z -> datetime)
    (api_hourly : hourly) (lat lon : float) (db : db_state)
    : db_state * outcome (list WeatherData) :=
  match walk (temperatures api_hourly) (humidities api_hourly)
             lat lon utcnow
             0%nat (timestamps api_hourly) (session db) [] with
  | (rows, Raise e) => ({| table := table db; session := rows |}, Raise e)
  | (rows, Return touched) =>
      let db' := {| table := table db; session := rows |} in
      match commit_error with
      | None => (commit db', Return (rows_of rows touched))
      | Some msg =>
          (rollback db',
           Raise (Exception ("Failed to store weather data: " ++ msg)))
      end
  end.

End Service.

(** [get_recent_weather_data]; [now] is [datetime.utcnow()]. *)
Definition get_recent_weather_data (now : datetime) (hours : Z) (db : db_state)
    : db_state * list WeatherData :=
  let cutoff_time := now - timedelta_hours hours in
  (db, order_by_timestamp
         (filter (fun r => cutoff_time <=? timestamp r) (session db))).

(** [get_weather_data_by_location]. *)
Definition get_weather_data_by_location (now : datetime)
    (lat lon : float) (hours : Z) (db : db_state)
    : db_state * list WeatherData :=
  let cutoff_time := now - timedelta_hours hours in
  (db, order_by_timestamp
         (filter (fun r => column_eq (latitude r) lat
                           && column_eq (longitude r) lon
                           && (cutoff_time <=? timestamp r))
                 (session db))).

End WeatherService.

(* ================================================================= *)
(** ** The archive response and [fetch_weather_data] *)

(** A decoded JSON document ([response.json()]).  An object keeps its
    members in document order; as in a Python [dict] built by the decoder,
    the last member with a given name is the one that counts. *)
#[local] Unset Elimination Schemes.
Inductive json : Type :=
| JNull
| JBool (b : bool)
| JNumber (x : float)
| JString (s : string)
| JArray (items : list json)
| JObject (members : list (string * json)).
#[local] Set Elimination Schemes.

Definition is_string (key : string) (v : json) : bool :=
  match v with
  | JString s => String.eqb s key
  | _ => false
  end.

Fixpoint dict_get (key : string) (members : list (string * json)) : option json :=
  match members with
  | [] => None
  | (k, v) :: rest =>
      match dict_get key rest with
      | Some v' => Some v'
      | None => if String.eqb k key then Some v else None
      end
  end.

(** Python's [key in v] for a string [key]: key membership in a dict,
    element membership in a list, substring test in a string, [TypeError]
    on the other values. *)
Definition py_in (key : string) (v : json) : outcome bool :=
  match v with
  | JObject members =>
      Return (match dict_get key members with Some _ => true | None => false end)
  | JArray items => Return (existsb (is_string key) items)
  | JString s =>
      Return (match index 0 key s with Some _ => true | None => false end)
  | _ => Raise TypeError
  end.

(** Python's [v[key]] for a string [key], after [key in v] held. *)
Definition py_getitem (key : string) (v : json) : outcome json :=
  match v with
  | JObject members =>
      match dict_get key members with
      | Some x => Return x
      | None => Raise KeyError
      end
  | _ => Raise TypeError
  end.

Definition required_fields : list string :=
  ["time"; "temperature_2m"; "relative_humidity_2m"]%string.

(** [for field in required_fields: if field not in hourly_data: raise] *)
Fixpoint check_fields (fields : list string) (hourly_data : json) : outcome unit :=
  match fields with
  | [] => Return tt
  | field :: rest =>
      match py_in field hourly_data with
      | Raise e => Raise e
      | Return false =>
          Raise (ValueError ("Invalid API response: missing '" ++ field
                             ++ "' in hourly data"))
      | Return true => check_fields rest hourly_data
      end
  end.

(** The query string sent to the archive; dates are day numbers. *)
Record archive_params : Type := mkParams {
  p_latitude : float;
  p_longitude : float;
  p_hourly : string;
  p_start_date : Z;
  p_end_date : Z;
  p_timezone : string
}.

(** What [requests.get], [raise_for_status] and [response.json()] give:
    a [RequestException] or the decoded body. *)
Inductive http_reply : Type :=
| RequestFailed (msg : string)
| Body (data : json).

Module ArchiveClient.
Section Fetch.

Variable requests_get : archive_params -> http_reply.

(** The block under [# Validate response structure]. *)
Definition validate_response (data : json) : outcome json :=
  match py_in "hourly" data with
  | Raise e => Raise e
  | Return false => Raise (ValueError "Invalid API response: missing 'hourly' data")
  | Return true =>
      match py_getitem "hourly" data with
      | Raise e => Raise e
      | Return hourly_data =>
          match check_fields required_fields hourly_data with
          | Raise e => Raise e
          | Return _ => Return data
          end
      end
  end.

(** [fetch_weather_data]; [today] is [datetime.now().date()]. *)
Definition fetch_weather_data (today : Z) (lat lon : float) (days : Z)
    : outcome json :=
  let end_date := today - 1 in
  let start_date := end_date - (days - 1) in
  let params := {| p_latitude := lat; p_longitude := lon;
                   p_hourly := "temperature_2m,relative_humidity_2m";
                   p_start_date := start_date; p_end_date := end_date;
                   p_timezone := "auto" |} in
  match requests_get params with
  | RequestFailed msg =>
      Raise (RequestException ("Failed to fetch weather data: " ++ msg))
  | Body data =>
      match validate_response data with
      | Raise (ValueError msg) =>
          Raise (ValueError ("Invalid weather data received: " ++ msg))
      | r => r
      end
  end.

End Fetch.
End ArchiveClient.

(** The lengths of the three arrays of a response, when they are arrays. *)
Definition array_length (key : string) (hourly_data : json) : option nat :=
  match py_getitem key hourly_data with
  | Return (JArray items) => Some (List.length items)
  | _ => None
  end.

Definition arrays_aligned (data : json) : bool :=
  match py_getitem "hourly" data with
  | Return hourly_data =>
      match array_length "time" hourly_data,
            array_length "temperature_2m" hourly_data,
            array_length "relative_humidity_2m" hourly_data with
      | Some n1, Some n2, Some n3 => Nat.eqb n1 n2 && Nat.eqb n2 n3
      | _, _, _ => false
      end
  | Raise _ => false
  end.

(** Reading a well-typed response (strings for the hours, numbers or null
    for the measurements) as the series that the upsert walks. *)
Definition as_time (v : json) : option string :=
  match v with JString s => Some s | _ => None end.

Definition as_measurement (v : json) : option (option float) :=
  match v with
  | JNull => Some None
  | JNumber x => Some (Some x)
  | _ => None
  end.

Fixpoint all_some {A : Type} (l : list (option A)) : option (list A) :=
  match l with
  | [] => Some []
  | None :: _ => None
  | Some a :: l' =>
      match all_some l' with
      | Some r => Some (a :: r)
      | None => None
      end
  end.

Definition as_list {A : Type} (f : json -> option A) (v : outcome json)
    : option (list A) :=
  match v with
  | Return (JArray items) => all_some (map f items)
  | _ => None
  end.

Definition hourly_of_json (data : json) : option hourly :=
  match py_getitem "hourly" data with
  | Return hourly_data =>
      match as_list as_time (py_getitem "time" hourly_data),
            as_list as_measurement (py_getitem "temperature_2m" hourly_data),
            as_list as_measurement (py_getitem "relative_humidity_2m" hourly_data) with
      | Some ts, Some te, Some hu =>
          Some {| timestamps := ts; temperatures := te; humidities := hu |}
      | _, _, _ => None
      end
  | Raise _ => None
  end.

(* ================================================================= *)
(** ** routes/weather.py *)

Module Routes.

(** The query string after [request.args.get(..., type=...)]: a parameter
    that is absent or does not convert is [None]. *)
Record query_args : Type := mkArgs {
  arg_lat : option float;
  arg_lon : option float;
  arg_hours : option Z
}.

Inductive body : Type :=
| ErrorBody (error message : string)
| DataBody (hours_requested : Z) (location_filter : option (float * float))
           (data : list WeatherData)
| FileBody (mimetype : string).

Definition response : Type := Z * body.

(** [-90 <= lat <= 90] and [-180 <= lon <= 180]. *)
Definition lat_in_range (lat : float) : bool :=
  float_le (float_of_Z (-90)) lat && float_le lat (float_of_Z 90).
Definition lon_in_range (lon : float) : bool :=
  float_le (float_of_Z (-180)) lon && float_le lon (float_of_Z 180).

(** The block that [get_weather_data], [export_excel] and [export_pdf]
    each start with: read the parameters, validate [hours], then validate
    the coordinates and query by location when both are given, or query
    every location otherwise. *)
Inductive selection : Type :=
| Rejected (r : response)
| Selected (hours : Z) (location_filter : option (float * float))
           (weather_data : list WeatherData).

Definition select_weather_data (now : datetime) (args : query_args)
    (db : db_state) : selection :=
  let hours := match arg_hours args with Some h => h | None => 48 end in
  if (hours <=? 0) || (168 <? hours) then
    Rejected (400, ErrorBody "Invalid hours parameter"
                             "Hours must be between 1 and 168 (1 week)")
  else
    match arg_lat args, arg_lon args with
    | Some lat, Some lon =>
        if negb (lat_in_range lat) || negb (lon_in_range lon) then
          Rejected (400, ErrorBody "Invalid coordinates"
             "Latitude must be between -90 and 90, longitude between -180 and 180")
        else
          Selected hours (Some (lat, lon))
            (snd (WeatherService.get_weather_data_by_location now lat lon hours db))
    | _, _ =>
        Selected hours None
          (snd (WeatherService.get_recent_weather_data now hours db))
    end.

(** [GET /weather-data] *)
Definition get_weather_data (now : datetime) (args : query_args)
    (db : db_state) : response :=
  match select_weather_data now args db with
  | Rejected r => r
  | Selected hours loc weather_data => (200, DataBody hours loc weather_data)
  end.

Definition no_data : response :=
  (404, ErrorBody "No data found"
                  "No weather data available for the specified parameters").

(** [GET /export/excel]; [workbook_error] is the exception, if any, raised
    while the workbook is built, saved and sent. *)
Definition export_excel (workbook_error : option string) (now : datetime)
    (args : query_args) (db : db_state) : response :=
  match select_weather_data now args db with
  | Rejected r => r
  | Selected hours loc weather_data =>
      match weather_data with
      | [] => no_data
      | _ :: _ =>
          match workbook_error with
          | Some msg => (500, ErrorBody "Excel export failed" msg)
          | None =>
              (200, FileBody
                 "application/vnd.openxmlformats-officedocument.spreadsheetml.sheet")
          end
      end
  end.

(** What the steps of [export_pdf] that leave this code do on one request:
    the lazy import of the HTML renderer, the chart, the temporary file,
    [write_pdf], [generate_pdf_with_reportlab] and [send_file].  Each
    [option string] is the message of the exception raised, if any. *)
Record pdf_steps : Type := mkSteps {
  weasyprint_imported : bool;
  chart_error : option string;
  tempfile_error : option string;
  write_pdf_error : option string;
  reportlab_error : option string;
  send_file_error : option string
}.

(** The primary pipeline fails when the renderer is missing or raises. *)
Definition primary_fails (e : pdf_steps) : bool :=
  negb (weasyprint_imported e)
  || match write_pdf_error e with Some _ => true | None => false end.

Definition fallback_fails (e : pdf_steps) : bool :=
  match reportlab_error e with Some _ => true | None => false end.

Definition pdf_failed (msg : string) : response :=
  (500, ErrorBody "PDF export failed" msg).

Definition send_pdf (e : pdf_steps) : response :=
  match send_file_error e with
  | Some msg => pdf_failed msg
  | None => (200, FileBody "application/pdf")
  end.

(** [GET /export/pdf].  [generate_pdf_html] only formats a non-empty list
    of rows and is taken not to raise. *)
Definition export_pdf (e : pdf_steps) (now : datetime) (args : query_args)
    (db : db_state) : response :=
  match select_weather_data now args db with
  | Rejected r => r
  | Selected hours loc weather_data =>
      match weather_data with
      | [] => no_data
      | _ :: _ =>
          match chart_error e with
          | Some msg => pdf_failed msg
          | None =>
              match tempfile_error e with
              | Some msg => pdf_failed msg
              | None =>
                  if primary_fails e then
                    match reportlab_error e with
                    | Some _ =>
                        pdf_failed "Both WeasyPrint and ReportLab fallback failed"
                    | None => send_pdf e
                    end
                  else send_pdf e
              end
          end
      end
  end.

End Routes.

(* ================================================================= *)
(** ** The timestamps the archive serves *)

(** [datetime.fromisoformat] on the one shape the archive sends, once the
    [T] is replaced: [YYYY-MM-DD HH:MM].  Other shapes are refused here. *)
Module IsoFormat.

Definition digit_of (c : ascii) : option Z :=
  let n := Z.of_nat (nat_of_ascii c) in
  if (48 <=? n) && (n <=? 57) then Some (n - 48) else None.

Fixpoint digits (n : nat) (acc : Z) (s : string) : option (Z * string) :=
  match n with
  | O => Some (acc, s)
  | S n' =>
      match s with
      | String c s' =>
          match digit_of c with
          | Some d => digits n' (10 * acc + d) s'
          | None => None
          end
      | EmptyString => None
      end
  end.

Definition expect (c : ascii) (s : string) : option string :=
  match s with
  | String c' s' => if Ascii.eqb c c' then Some s' else None
  | EmptyString => None
  end.

Definition is_leap (y : Z) : bool :=
  ((y mod 4 =? 0) && negb (y mod 100 =? 0)) || (y mod 400 =? 0).

Definition days_in_month (y m : Z) : Z :=
  if m =? 2 then (if is_leap y then 29 else 28)
  else if (m =? 4) || (m =? 6) || (m =? 9) || (m =? 11) then 30
  else 31.

(** Days from 1970-01-01 to the civil date [y-m-d]. *)
Definition days_from_civil (y m d : Z) : Z :=
  let y' := if m <=? 2 then y - 1 else y in
  let era := y' / 400 in
  let yoe := y' - era * 400 in
  let mp := if 2 <? m then m - 3 else m + 9 in
  let doy := (153 * mp + 2) / 5 + d - 1 in
  let doe := yoe * 365 + yoe / 4 - yoe / 100 + doy in
  era * 146097 + doe - 719468.

Definition bind {A B : Type} (x : option A) (f : A -> option B) : option B :=
  match x with
  | Some a => f a
  | None => None
  end.

Definition fromisoformat (s : string) : option datetime :=
  bind (digits 4 0 s) (fun '(y, s) =>
  bind (expect "-" s) (fun s =>
  bind (digits 2 0 s) (fun '(m, s) =>
  bind (expect "-" s) (fun s =>
  bind (digits 2 0 s) (fun '(d, s) =>
  bind (expect " " s) (fun s =>
  bind (digits 2 0 s) (fun '(hh, s) =>
  bind (expect ":" s) (fun s =>
  bind (digits 2 0 s) (fun '(mm, s) =>
  match s with
  | EmptyString =>
      if (1 <=? y) && (1 <=? m) && (m <=? 12) && (1 <=? d)
         && (d <=? days_in_month y m) && (hh <=? 23) && (mm <=? 59)
      then Some (((days_from_civil y m d * 24 + hh) * 60 + mm) * 60000000)
      else None
  | String _ _ => None
  end))))))))).

(** The text of the [ValueError] for a string that is refused. *)
Definition error_text (s : string) : string :=
  "Invalid isoformat string: '" ++ s ++ "'".

End IsoFormat.

(* ================================================================= *)
(** ** Sample data *)

Module Examples.

Definition lat47 : float := float_of_Z 47.
Definition lon8 : float := float_of_Z 8.

Definition empty_db : db_state := {| table := []; session := [] |}.

(** A database that answers every lookup, and one whose lookup at index
    [k] raises. *)
Definition no_error : nat -> bool := fun _ => false.
Definition error_at (k : nat) : nat -> bool := fun i => Nat.eqb i k.

(** A clock that reads [c + pk] when the row with primary key [pk] is
    inserted. *)
Definition clock_from (c : datetime) : Z -> datetime := fun pk => c + pk.

(** Two hours of 2024-01-01, as the archive sends them. *)
Definition two_hours : hourly :=
  {| timestamps := ["2024-01-01T00:00"; "2024-01-01T01:00"]%string;
     temperatures := [Some (float_of_Z 1); Some (float_of_Z 2)];
     humidities := [Some (float_of_Z 50); Some (float_of_Z 60)] |}.

(** The first hour again, five degrees warmer. *)
Definition warmer : hourly :=
  {| timestamps := ["2024-01-01T00:00"]%string;
     temperatures := [Some (float_of_Z 5)];
     humidities := [Some (float_of_Z 50)] |}.

(** Two hours with one measurement only. *)
Definition short_series : hourly :=
  {| timestamps := ["2024-01-01T00:00"; "2024-01-01T01:00"]%string;
     temperatures := [Some (float_of_Z 1)];
     humidities := [Some (float_of_Z 50)] |}.

(** One hour with a null temperature and no humidity at all. *)
Definition null_series : hourly :=
  {| timestamps := ["2024-01-01T00:00"]%string;
     temperatures := [None];
     humidities := [] |}.

(** One hour at a temperature of [-0.0]. *)
Definition thaw : hourly :=
  {| timestamps := ["2024-01-01T00:00"]%string;
     temperatures := [Some (S754_zero true)];
     humidities := [Some (float_of_Z 50)] |}.

(** Three hours and two measurements, the first temperature a NaN. *)
Definition nan_series : hourly :=
  {| timestamps := ["2024-01-01T00:00"; "2024-01-01T01:00";
                    "2024-01-01T02:00"]%string;
     temperatures := [Some S754_nan; Some (float_of_Z 2)];
     humidities := [Some (float_of_Z 50); Some (float_of_Z 60)] |}.

(** A reconcile with the sample parser, on a database that answers every
    lookup, the clock reading [7] at the INSERT of row 1. *)
Definition ingest (commit_error : option string)
    : hourly -> float -> float -> db_state
      -> db_state * outcome (list WeatherData) :=
  WeatherService.process_and_store_weather_data
    IsoFormat.fromisoformat IsoFormat.error_text no_error commit_error
    (clock_from 6).

(** The store after [two_hours] was ingested. *)
Definition first_ingest : db_state * outcome (list WeatherData) :=
  ingest None two_hours lat47 lon8 empty_db.

Definition db_after : db_state := fst first_ingest.

Definition recs_after : list WeatherData :=
  match snd first_ingest with
  | Return recs => recs
  | Raise _ => []
  end.

(** Then [warmer], an hour of clock later. *)
Definition second_ingest : db_state * outcome (list WeatherData) :=
  WeatherService.process_and_store_weather_data
    IsoFormat.fromisoformat IsoFormat.error_text no_error None
    (clock_from 3600000006) warmer lat47 lon8 db_after.

Definition db_second : db_state := fst second_ingest.

Definition recs_second : list WeatherData :=
  match snd second_ingest with
  | Return recs => recs
  | Raise _ => []
  end.

Definition midnight : datetime := 1704067200000000.

Definition row_midnight : WeatherData :=
  {| id := 1; timestamp := midnight;
     latitude := lat47; longitude := lon8;
     temperature_2m := float_of_Z 1;
     relative_humidity_2m := float_of_Z 50;
     created_at := 7 |}.

(** A response that has the three fields, of lengths 1, 0 and 0. *)
Definition unaligned_body : json :=
  JObject [("hourly",
            JObject [("time", JArray [JString "2024-01-01T00:00"]);
                     ("temperature_2m", JArray []);
                     ("relative_humidity_2m", JArray [])])]%string.

(** A response whose [hourly] member is a list of the field names. *)
Definition names_only_body : json :=
  JObject [("hourly",
            JArray [JString "time"; JString "temperature_2m";
                    JString "relative_humidity_2m"])]%string.

Definition archive_answers (data : json) : archive_params -> http_reply :=
  fun _ => Body data.

(** Requests. *)
Definition only_lat_91 : Routes.query_args :=
  {| Routes.arg_lat := Some (float_of_Z 91);
     Routes.arg_lon := None;
     Routes.arg_hours := None |}.

Definition at_zurich (hours : option Z) : Routes.query_args :=
  {| Routes.arg_lat := Some lat47;
     Routes.arg_lon := Some lon8;
     Routes.arg_hours := hours |}.

Definition at_coordinates (lat lon : Z) : Routes.query_args :=
  {| Routes.arg_lat := Some (float_of_Z lat);
     Routes.arg_lon := Some (float_of_Z lon);
     Routes.arg_hours := None |}.

(** A clock reading one day after [midnight]. *)
Definition next_day : datetime := midnight + timedelta_hours 24.

(** Every step works but the chart. *)
Definition chart_breaks : Routes.pdf_steps :=
  {| Routes.weasyprint_imported := true;
     Routes.chart_error := Some "savefig failed"%string;
     Routes.tempfile_error := None;
     Routes.write_pdf_error := None;
     Routes.reportlab_error := None;
     Routes.send_file_error := None |}.

(** The HTML renderer is missing, the fallback works. *)
Definition no_weasyprint : Routes.pdf_steps :=
  {| Routes.weasyprint_imported := false;
     Routes.chart_error := None;
     Routes.tempfile_error := None;
     Routes.write_pdf_error := None;
     Routes.reportlab_error := None;
     Routes.send_file_error := None |}.

End Examples.

(* ================================================================= *)
(** ** Vocabulary of the properties *)

(** Two floats are equal as column values when they are the same value or
    are both zeros. *)
Definition same_value (x y : float) : Prop :=
  match x, y with
  | S754_zero _, S754_zero _ => True
  | _, _ => x = y
  end.

(** At most one row per [(timestamp, latitude, longitude)] triple. *)
Fixpoint unique_triples (rows : list WeatherData) : bool :=
  match rows with
  | [] => true
  | r :: rest => negb (existsb (same_triple r) rest) && unique_triples rest
  end.

(** The invariant of the store, on the committed rows and on the rows of
    the open transaction. *)
Definition db_invariant (db : db_state) : Prop :=
  unique_triples (table db) = true /\ unique_triples (session db) = true.

Definition by_timestamp (r1 r2 : WeatherData) : Prop :=
  timestamp r1 <= timestamp r2.

(** Primary keys are unique. *)
Definition unique_ids (rows : list WeatherData) : Prop :=
  NoDup (map id rows).

(** The hours of a series that reach the store: parsed timestamp,
    temperature and humidity of every index that is not skipped, in input
    order; or the exception that stops the walk. *)
Definition entry : Type := datetime * float * float.

Definition entry_ts (e : entry) : datetime := fst (fst e).

Section Entries.

Variable fromisoformat : string -> option datetime.
Variable isoformat_error : string -> string.
Variable lookup_error : nat -> bool.
Variables temps hums : list (option float).

Fixpoint entries (i : nat) (tss : list string) : outcome (list entry) :=
  match tss with
  | [] => Return []
  | timestamp_str :: rest =>
      match fromisoformat (replace "T" " " timestamp_str) with
      | None =>
          Raise (ValueError (isoformat_error (replace "T" " " timestamp_str)))
      | Some ts =>
          match nth_error temps i with
          | None => Raise IndexError
          | Some None => entries (S i) rest
          | Some (Some t) =>
              match nth_error hums i with
              | None => Raise IndexError
              | Some None => entries (S i) rest
              | Some (Some h) =>
                  if lookup_error i then Raise SQLAlchemyError
                  else
                  match entries (S i) rest with
                  | Return es => Return ((ts, t, h) :: es)
                  | Raise e => Raise e
                  end
              end
          end
      end
  end.

(** The entries that the walk has written when it stops, whether it
    reaches the end of the series or raises on the way. *)
Fixpoint processed (i : nat) (tss : list string) : list entry :=
  match tss with
  | [] => []
  | timestamp_str :: rest =>
      match fromisoformat (replace "T" " " timestamp_str) with
      | None => []
      | Some ts =>
          match nth_error temps i with
          | None => []
          | Some None => processed (S i) rest
          | Some (Some t) =>
              match nth_error hums i with
              | None => []
              | Some None => processed (S i) rest
              | Some (Some h) =>
                  if lookup_error i then []
                  else (ts, t, h) :: processed (S i) rest
              end
          end
      end
  end.

End Entries.

(** One upsert, the primary key it touches, and the keys touched by a run
    of upserts. *)
Definition upsert (lat lon : float) (utcnow : Z -> datetime)
    (rows : list WeatherData) (e : entry) : list WeatherData :=
  let '(ts, t, h) := e in
  match query_first ts lat lon rows with
  | Some existing_record => update_row (id existing_record) t h rows
  | None => add_row ts lat lon t h utcnow rows
  end.

Definition touched_id (lat lon : float) (rows : list WeatherData) (e : entry) : Z :=
  match query_first (entry_ts e) lat lon rows with
  | Some existing_record => id existing_record
  | None => next_id rows
  end.

Fixpoint touched_ids (lat lon : float) (utcnow : Z -> datetime) (es : list entry)
    (rows : list WeatherData) : list Z :=
  match es with
  | [] => []
  | e :: es' =>
      touched_id lat lon rows e :: touched_ids lat lon utcnow es' (upsert lat lon utcnow rows e)
  end.

(** The primary key of the first row with a given key. *)
Definition first_id (lat lon : float) (ts : datetime) (rows : list WeatherData)
    : option Z :=
  option_map id (query_first ts lat lon rows).

(** What a run of updates does to one row, the rows that the lookups see
    being [rows]. *)
Definition hit (lat lon : float) (rows : list WeatherData) (ts : datetime)
    (r : WeatherData) : bool :=
  match first_id lat lon ts rows with
  | Some pk => id r =? pk
  | None => false
  end.

Definition upd (lat lon : float) (rows : list WeatherData) (r : WeatherData)
    (e : entry) : WeatherData :=
  let '(ts, t, h) := e in
  if hit lat lon rows ts r then set_measurements t h r else r.

Definition replay (lat lon : float) (rows : list WeatherData) (es : list entry)
    (r : WeatherData) : WeatherData :=
  fold_left (upd lat lon rows) es r.

(** Every entry of [es] finds a row in [rows]. *)
Definition present (lat lon : float) (rows : list WeatherData)
    (es : list entry) : Prop :=
  Forall (fun e => first_id lat lon (entry_ts e) rows <> None) es.

(** Replaying [es] changes no row of [rows]. *)
Definition settled (lat lon : float) (rows : list WeatherData)
    (es : list entry) : Prop :=
  forall r, In r rows -> replay lat lon rows es r = r.

(** Index [j] makes the walk index out of range: the temperature array
    ends before [j], or the temperature at [j] is not null and the humidity
    array ends before [j]. *)
Definition out_of_range (temps hums : list (option float)) (j : nat) : Prop :=
  nth_error temps j = None
  \/ exists t, nth_error temps j = Some (Some t) /\ nth_error hums j = None.

(** Index [j] makes the walk ask the database: both measurements are
    there. *)
Definition looked_up (temps hums : list (option float)) (j : nat) : Prop :=
  exists t h,
    nth_error temps j = Some (Some t) /\ nth_error hums j = Some (Some h).

(** The range of [datetime]: year 1 to year 9999. *)
Definition datetime_min : datetime := -62135596800000000.
Definition datetime_max : datetime := 253402300799999999.

Definition is_datetime (d : Z) : Prop := datetime_min <= d <= datetime_max.

(** The exception of a failed commit, as the caller sees it. *)
Definition storage_error (e : exn) : Prop :=
  exists msg, e = Exception ("Failed to store weather data: " ++ msg).

(* ================================================================= *)
(** ** routes/weather.py: the ingestion endpoint and the report statistics *)

Module ReportRoute.

Inductive report_body : Type :=
| ReportError (error message : string)
| ReportSummary (location : float * float) (records_count : nat)
                (data_range : option datetime * option datetime)
                (sample_data : list WeatherData).

Section Handler.

(** The two service calls of the handler, and Python's [str] on the
    exception it catches. *)
Variable fetch_weather_data : float -> float -> Z -> outcome json.
Variable process_and_store_weather_data :
  json -> float -> float -> db_state -> db_state * outcome (list WeatherData).
Variable str : exn -> string.

(** [weather_records[0].timestamp] and [weather_records[-1].timestamp], or
    [None] twice for an empty list. *)
Definition data_range_of (weather_records : list WeatherData)
    : option datetime * option datetime :=
  match weather_records with
  | [] => (None, None)
  | r :: _ => (Some (timestamp r), Some (timestamp (last weather_records r)))
  end.

(** [GET /weather-report] *)
Definition get_weather_report (lat lon : option float) (db : db_state)
    : db_state * (Z * report_body) :=
  match lat, lon with
  | Some lat, Some lon =>
      if negb (Routes.lat_in_range lat) then
        (db, (400, ReportError "Invalid latitude"
                               "Latitude must be between -90 and 90"))
      else if negb (Routes.lon_in_range lon) then
        (db, (400, ReportError "Invalid longitude"
                               "Longitude must be between -180 and 180"))
      else
        match fetch_weather_data lat lon 2 with
        | Raise e => (db, (500, ReportError "API fetch failed" (str e)))
        | Return api_data =>
            match process_and_store_weather_data api_data lat lon db with
            | (db', Raise e) =>
                (db', (500, ReportError "Database storage failed" (str e)))
            | (db', Return weather_records) =>
                (db', (200, ReportSummary (lat, lon)
                              (List.length weather_records)
                              (data_range_of weather_records)
                              (firstn 5 weather_records)))
            end
        end
  | _, _ =>
      (db, (400, ReportError "Missing required parameters"
                             "Both lat and lon parameters are required"))
  end.

End Handler.
End ReportRoute.

(** The statistics that [generate_pdf_html] and
    [generate_pdf_with_reportlab] compute with [min] and [max] (the
    averages, which are float arithmetic, are left out). *)
Module ReportStats.

(** Python's [x < y] on floats. *)
Definition float_lt (x y : float) : bool := SFltb x y.

(** [min] keeps the current best unless the next item is smaller, [max]
    unless it is greater; on an empty list both raise a [ValueError] (whose
    text depends on the interpreter). *)
Fixpoint min_from {A : Type} (lt : A -> A -> bool) (best : A) (l : list A) : A :=
  match l with
  | [] => best
  | x :: l' => min_from lt (if lt x best then x else best) l'
  end.

Fixpoint max_from {A : Type} (lt : A -> A -> bool) (best : A) (l : list A) : A :=
  match l with
  | [] => best
  | x :: l' => max_from lt (if lt best x then x else best) l'
  end.

Definition py_min {A : Type} (lt : A -> A -> bool) (l : list A) : outcome A :=
  match l with
  | [] => Raise (ValueError "min() arg is an empty sequence")
  | x :: l' => Return (min_from lt x l')
  end.

Definition py_max {A : Type} (lt : A -> A -> bool) (l : list A) : outcome A :=
  match l with
  | [] => Raise (ValueError "max() arg is an empty sequence")
  | x :: l' => Return (max_from lt x l')
  end.

Record statistics : Type := mkStatistics {
  temp_min : float;
  temp_max : float;
  hum_min : float;
  hum_max : float;
  start_time : datetime;
  end_time : datetime;
  total_records : nat
}.

Definition bind {A B : Type} (x : outcome A) (f : A -> outcome B) : outcome B :=
  match x with
  | Return a => f a
  | Raise e => Raise e
  end.

Definition summarize (weather_data : list WeatherData) : outcome statistics :=
  let temperatures := map temperature_2m weather_data in
  let humidities := map relative_humidity_2m weather_data in
  bind (py_min float_lt temperatures) (fun temp_min =>
  bind (py_max float_lt temperatures) (fun temp_max =>
  bind (py_min float_lt humidities) (fun hum_min =>
  bind (py_max float_lt humidities) (fun hum_max =>
  bind (py_min Z.ltb (map timestamp weather_data)) (fun start_time =>
  bind (py_max Z.ltb (map timestamp weather_data)) (fun end_time =>
  Return {| temp_min := temp_min; temp_max := temp_max;
            hum_min := hum_min; hum_max := hum_max;
            start_time := start_time; end_time := end_time;
            total_records := List.length weather_data |})))))).

End ReportStats.

(* ================================================================= *)
(** ** More sample data *)

Module MoreExamples.

(** The archive answers with two well-aligned hours. *)
Definition aligned_body : json :=
  JObject [("hourly",
            JObject [("time", JArray [JString "2024-01-01T00:00";
                                      JString "2024-01-01T01:00"]);
                     ("temperature_2m",
                      JArray [JNumber (float_of_Z 1); JNumber (float_of_Z 2)]);
                     ("relative_humidity_2m",
                      JArray [JNumber (float_of_Z 50); JNull])])]%string.

(** Three hours, the middle one without a temperature. *)
Definition gap_series : hourly :=
  {| timestamps := ["2024-01-01T00:00"; "2024-01-01T01:00";
                    "2024-01-01T02:00"]%string;
     temperatures := [Some (float_of_Z 1); None; Some (float_of_Z 3)];
     humidities := [Some (float_of_Z 50); Some (float_of_Z 60);
                    Some (float_of_Z 70)] |}.

(** A row of another place, stored before any ingestion. *)
Definition row_elsewhere : WeatherData :=
  {| id := 1; timestamp := Examples.midnight;
     latitude := float_of_Z 10; longitude := float_of_Z 20;
     temperature_2m := float_of_Z 30;
     relative_humidity_2m := float_of_Z 40;
     created_at := 3 |}.

Definition db_elsewhere : db_state :=
  {| table := [row_elsewhere]; session := [row_elsewhere] |}.

(** Sample services for the handler: the archive always answers
    [aligned_body], or is down; the store takes a well-typed response as the
    series it decodes to. *)
Definition fetch_aligned (lat lon : float) (days : Z) : outcome json :=
  ArchiveClient.fetch_weather_data (Examples.archive_answers aligned_body)
    19724 lat lon days.

Definition fetch_down (lat lon : float) (days : Z) : outcome json :=
  ArchiveClient.fetch_weather_data
    (fun _ => RequestFailed "connection refused") 19724 lat lon days.

Definition store_decoded (data : json) (lat lon : float) (db : db_state)
    : db_state * outcome (list WeatherData) :=
  match hourly_of_json data with
  | Some series =>
      WeatherService.process_and_store_weather_data
        IsoFormat.fromisoformat IsoFormat.error_text Examples.no_error None
        (Examples.clock_from 6) series lat lon db
  | None => (db, Raise TypeError)
  end.

Definition message_of (e : exn) : string :=
  match e with
  | ValueError msg | RequestException msg | Exception msg => msg
  | IndexError => "list index out of range"
  | KeyError => "key"
  | TypeError => "type"
  | SQLAlchemyError => "database"
  end.

End MoreExamples.

(* ================================================================= *)
(** ** More vocabulary *)

(** A float that is a number: neither NaN nor an infinity. *)
Definition is_number (x : float) : bool :=
  match x with
  | S754_zero _ | S754_finite _ _ _ => true
  | _ => false
  end.

Definition is_nan (x : float) : bool :=
  match x with
  | S754_nan => true
  | _ => false
  end.

(** What identifies a row apart from its two measurements. *)
Definition identity_of (r : WeatherData)
    : Z * datetime * float * float * datetime :=
  (id r, timestamp r, latitude r, longitude r, created_at r).

(** The hours of a series with a temperature and a humidity, in input
    order, read off the three lists side by side. *)
Definition both_present (x : string * (option float * option float)) : bool :=
  match x with
  | (_, (Some _, Some _)) => true
  | _ => false
  end.

Definition kept_hours (api_hourly : hourly) : list string :=
  map fst
      (filter both_present
              (combine (timestamps api_hourly)
                       (combine (temperatures api_hourly)
                                (humidities api_hourly)))).

(** The place of a float in the order of [<]: its class, then exponent and
    mantissa, signed. *)
Definition rank (x : float) : Z * Z * Z :=
  match x with
  | S754_nan => (0, 0, 0)
  | S754_zero _ => (0, 0, 0)
  | S754_infinity true => (-2, 0, 0)
  | S754_infinity false => (2, 0, 0)
  | S754_finite true m e => (-1, - e, - Z.pos m)
  | S754_finite false m e => (1, e, Z.pos m)
  end.

Definition lex_lt (a b : Z * Z * Z) : Prop :=
  let '(a1, a2, a3) := a in
  let '(b1, b2, b3) := b in
  a1 < b1 \/ (a1 = b1 /\ (a2 < b2 \/ (a2 = b2 /\ a3 < b3))).

(* ================================================================= *)
(** * Properties *)

(** ** Column equality is an equivalence *)

Lemma SFeqb_finite (s1 s2 : bool) (m1 m2 : positive) (e1 e2 : Z) :
  SFeqb (S754_finite s1 m1 e1) (S754_finite s2 m2 e2) = true <->
  s1 = s2 /\ m1 = m2 /\ e1 = e2.
Proof.
  unfold SFeqb, SFcompare.
  destruct s1, s2; split;
    try (intros H; discriminate H);
    try (intros (H & _ & _); discriminate H).
  - destruct (Z.compare_spec e1 e2) as [He|He|He]; try discriminate.
    destruct (Pos.compare_cont Eq m1 m2) eqn:Hm; try discriminate.
    apply Pos.compare_eq in Hm. auto.
  - intros (_ & -> & ->).
    rewrite Z.compare_refl, Pos.compare_cont_refl. reflexivity.
  - destruct (Z.compare_spec e1 e2) as [He|He|He]; try discriminate.
    destruct (Pos.compare_cont Eq m1 m2) eqn:Hm; try discriminate.
    apply Pos.compare_eq in Hm. auto.
  - intros (_ & -> & ->).
    rewrite Z.compare_refl, Pos.compare_cont_refl. reflexivity.
Qed.

Lemma column_eq_spec (x y : float) : column_eq x y = true <-> same_value x y.
Proof.
  destruct x as [sx|sx| |sx mx ex], y as [sy|sy| |sy my ey];
    unfold column_eq, same_value.
  16: { rewrite SFeqb_finite. split.
        - intros (-> & -> & ->). reflexivity.
        - intros H. injection H as -> -> ->. auto. }
  all: unfold SFeqb, SFcompare; try destruct sx; try destruct sy;
    split; intros H; try reflexivity; try exact I;
    try discriminate H; congruence.
Qed.

Lemma same_value_refl (x : float) : same_value x x.
Proof. destruct x; simpl; auto. Qed.

Lemma same_value_sym (x y : float) : same_value x y -> same_value y x.
Proof. destruct x, y; simpl; auto; congruence. Qed.

Lemma same_value_trans (x y z : float) :
  same_value x y -> same_value y z -> same_value x z.
Proof. destruct x, y, z; simpl; auto; try congruence; intros; discriminate. Qed.

Lemma column_eq_refl (x : float) : column_eq x x = true.
Proof. apply column_eq_spec, same_value_refl. Qed.

Lemma column_eq_sym (x y : float) : column_eq x y = column_eq y x.
Proof.
  destruct (column_eq x y) eqn:H1, (column_eq y x) eqn:H2; auto.
  - apply column_eq_spec, same_value_sym, column_eq_spec in H1. congruence.
  - apply column_eq_spec, same_value_sym, column_eq_spec in H2. congruence.
Qed.

Lemma column_eq_trans (x y z : float) :
  column_eq x y = true -> column_eq y z = true -> column_eq x z = true.
Proof.
  rewrite !column_eq_spec. apply same_value_trans.
Qed.

(** ** What a column keeps of a float *)

Lemma stored_idem (x : float) : stored (stored x) = stored x.
Proof. destruct x; reflexivity. Qed.

Lemma same_value_stored (x : float) : same_value (stored x) x.
Proof. destruct x; simpl; auto. Qed.

Lemma stored_exact (x : float) : x <> S754_zero true -> stored x = x.
Proof. destruct x as [[|]| | |]; simpl; congruence. Qed.

Lemma column_eq_stored_l (x y : float) :
  column_eq (stored x) y = column_eq x y.
Proof. destruct x as [[|]| | |], y; reflexivity. Qed.

Lemma column_eq_stored_r (x y : float) :
  column_eq x (stored y) = column_eq x y.
Proof. rewrite column_eq_sym, column_eq_stored_l. apply column_eq_sym. Qed.

(** ** Keys and the uniqueness invariant *)

Lemma key_matches_refl (r : WeatherData) :
  key_matches (timestamp r) (latitude r) (longitude r) r = true.
Proof.
  unfold key_matches. rewrite Z.eqb_refl, !column_eq_refl. reflexivity.
Qed.

Lemma key_matches_stored (ts : datetime) (lat lon : float) (r : WeatherData) :
  key_matches ts (stored lat) (stored lon) r = key_matches ts lat lon r.
Proof.
  unfold key_matches. rewrite !column_eq_stored_r. reflexivity.
Qed.

Lemma same_triple_sym (r1 r2 : WeatherData) :
  same_triple r1 r2 = same_triple r2 r1.
Proof.
  unfold same_triple, key_matches.
  rewrite (Z.eqb_sym (timestamp r1)), (column_eq_sym (latitude r1)),
    (column_eq_sym (longitude r1)). reflexivity.
Qed.

Lemma unique_triples_app (l : list WeatherData) (n : WeatherData) :
  unique_triples (l ++ [n]) =
  unique_triples l && forallb (fun r => negb (same_triple r n)) l.
Proof.
  induction l as [|a l IH]; simpl; [reflexivity|].
  rewrite IH, existsb_app. simpl. rewrite orb_false_r.
  destruct (existsb (same_triple a) l), (same_triple a n),
    (unique_triples l); simpl; auto.
Qed.

Lemma unique_triples_map (g : WeatherData -> WeatherData) (l : list WeatherData) :
  (forall a b, same_triple (g a) (g b) = same_triple a b) ->
  unique_triples (map g l) = unique_triples l.
Proof.
  intros Hg. induction l as [|a l IH]; simpl; [reflexivity|].
  rewrite IH. f_equal. f_equal.
  clear IH. induction l as [|b l IH]; simpl; [reflexivity|].
  rewrite Hg, IH. reflexivity.
Qed.

Lemma unique_triples_update (pk : Z) (t h : float) (rows : list WeatherData) :
  unique_triples (update_row pk t h rows) = unique_triples rows.
Proof.
  apply unique_triples_map. intros a b.
  destruct (id a =? pk), (id b =? pk); reflexivity.
Qed.

Lemma unique_triples_add (ts : datetime) (lat lon t h : float)
    (utcnow : Z -> datetime) (rows : list WeatherData) :
  query_first ts lat lon rows = None ->
  unique_triples rows = true ->
  unique_triples (add_row ts lat lon t h utcnow rows) = true.
Proof.
  intros Hq Hu. unfold add_row. rewrite unique_triples_app, Hu. simpl.
  apply forallb_forall. intros r Hr.
  unfold query_first in Hq.
  apply (find_none _ _ Hq) in Hr. unfold same_triple. simpl.
  rewrite key_matches_stored, Hr. reflexivity.
Qed.

Lemma unique_triples_cons_inv (a : WeatherData) (l : list WeatherData) :
  unique_triples (a :: l) = true <->
  (forall r, In r l -> same_triple a r = false) /\ unique_triples l = true.
Proof.
  simpl. rewrite andb_true_iff, negb_true_iff. split.
  - intros [He Hu]. split; [|exact Hu]. intros r Hr.
    destruct (same_triple a r) eqn:E; [|reflexivity].
    assert (existsb (same_triple a) l = true)
      by (apply existsb_exists; eauto). congruence.
  - intros [Hall Hu]. split; [|exact Hu].
    destruct (existsb (same_triple a) l) eqn:E; [|reflexivity].
    apply existsb_exists in E. destruct E as (r & Hr & Hs).
    rewrite (Hall r Hr) in Hs. discriminate.
Qed.

Lemma unique_triples_perm (l l' : list WeatherData) :
  Permutation l l' -> unique_triples l = true -> unique_triples l' = true.
Proof.
  induction 1 as [|x l l' Hp IH|x y l|l l' l'' Hp1 IH1 Hp2 IH2]; auto.
  - rewrite !unique_triples_cons_inv. intros [Hall Hu]. split; auto.
    intros r Hr. apply Hall. eapply Permutation_in; [symmetry|]; eauto.
  - rewrite !unique_triples_cons_inv. intros [Hy [Hx Hu]].
    split; [|split; auto].
    + intros r [<-|Hr]; [|apply Hx; exact Hr].
      rewrite same_triple_sym. apply Hy. left; reflexivity.
    + intros r Hr. apply Hy. right; exact Hr.
Qed.

Lemma unique_triples_filter (p : WeatherData -> bool) (l : list WeatherData) :
  unique_triples l = true -> unique_triples (filter p l) = true.
Proof.
  induction l as [|a l IH]; [reflexivity|].
  rewrite unique_triples_cons_inv. intros [Hall Hu]. simpl.
  destruct (p a); [|auto].
  apply unique_triples_cons_inv. split; [|auto].
  intros r Hr. apply filter_In in Hr. apply Hall, Hr.
Qed.

(** ** ORDER BY *)

Lemma insert_by_timestamp_perm (r : WeatherData) (l : list WeatherData) :
  Permutation (r :: l) (insert_by_timestamp r l).
Proof.
  induction l as [|x l IH]; simpl; [reflexivity|].
  destruct (timestamp r <=? timestamp x); [reflexivity|].
  rewrite perm_swap. constructor. exact IH.
Qed.

Lemma order_by_timestamp_perm (l : list WeatherData) :
  Permutation l (order_by_timestamp l).
Proof.
  induction l as [|a l IH]; simpl; [constructor|].
  rewrite <- insert_by_timestamp_perm. constructor. exact IH.
Qed.

Lemma order_by_timestamp_in (l : list WeatherData) (r : WeatherData) :
  In r (order_by_timestamp l) <-> In r l.
Proof.
  split; apply Permutation_in;
    [symmetry|]; apply order_by_timestamp_perm.
Qed.

Lemma insert_by_timestamp_sorted (r : WeatherData) (l : list WeatherData) :
  StronglySorted by_timestamp l ->
  StronglySorted by_timestamp (insert_by_timestamp r l).
Proof.
  induction 1 as [|x l Hs IH Hx]; simpl.
  - repeat constructor.
  - destruct (Z.leb_spec (timestamp r) (timestamp x)) as [Hle|Hgt].
    + constructor; [constructor; assumption|].
      constructor; [exact Hle|].
      eapply Forall_impl; [|exact Hx].
      unfold by_timestamp; intros; lia.
    + constructor; [exact IH|].
      eapply Permutation_Forall; [apply insert_by_timestamp_perm|].
      constructor; [unfold by_timestamp; lia | exact Hx].
Qed.

Lemma order_by_timestamp_sorted (l : list WeatherData) :
  StronglySorted by_timestamp (order_by_timestamp l).
Proof.
  induction l as [|a l IH]; simpl; [constructor|].
  apply insert_by_timestamp_sorted, IH.
Qed.

(** ** The walk of [process_and_store_weather_data] *)

Section WalkFacts.

Variable fromisoformat : string -> option datetime.
Variable isoformat_error : string -> string.
Variable lookup_error : nat -> bool.
Variables temps hums : list (option float).
Variables lat lon : float.
Variable utcnow : Z -> datetime.

#[local] Abbreviation walk :=
  (WeatherService.walk fromisoformat isoformat_error lookup_error
     temps hums lat lon utcnow).

(** One case analysis for every step of the loop. *)
Ltac walk_step ts t h existing Hq :=
  simpl;
  destruct (fromisoformat _) as [ts|]; [|try solve [simpl; auto]];
  [destruct (nth_error temps _) as [[t|]|]; [| |try solve [simpl; auto]];
   [destruct (nth_error hums _) as [[h|]|]; [| |try solve [simpl; auto]];
    [destruct (lookup_error _); [try solve [simpl; auto]|];
     destruct (query_first ts lat lon _) as [existing|] eqn:Hq| ] | ] ].

Lemma walk_unique (tss : list string) :
  forall (i : nat) (rows : list WeatherData) (touched : list Z),
    unique_triples rows = true ->
    unique_triples (fst (walk i tss rows touched)) = true.
Proof.
  induction tss as [|s tss IH]; intros i rows touched Hu; [exact Hu|].
  walk_step ts t h existing Hq; auto.
  - apply IH. rewrite unique_triples_update. exact Hu.
  - apply IH. apply unique_triples_add; assumption.
Qed.

End WalkFacts.

(** C1.  Reconcile, whatever its outcome, keeps at most one row per
    (timestamp, latitude, longitude) triple in the committed table and in
    the session; the two queries leave the database as it is and return
    rows that are again pairwise distinct on the triple. *)
Theorem C1_unique_triples_preserved
    (fromisoformat : string -> option datetime)
    (isoformat_error : string -> string) (lookup_error : nat -> bool)
    (commit_error : option string) (utcnow : Z -> datetime)
    (now : datetime) (api_hourly : hourly)
    (lat lon : float) (hours : Z) (db : db_state) :
  db_invariant db ->
  db_invariant
    (fst (WeatherService.process_and_store_weather_data
            fromisoformat isoformat_error lookup_error commit_error utcnow
            api_hourly lat lon db))
  /\ (let (db', rows) := WeatherService.get_recent_weather_data now hours db in
      db' = db /\ unique_triples rows = true)
  /\ (let (db', rows) :=
        WeatherService.get_weather_data_by_location now lat lon hours db in
      db' = db /\ unique_triples rows = true).
Proof.
  intros [Ht Hs]. split; [|split].
  - unfold WeatherService.process_and_store_weather_data.
    pose proof (walk_unique fromisoformat isoformat_error lookup_error
                  (temperatures api_hourly) (humidities api_hourly)
                  lat lon utcnow (timestamps api_hourly)
                  0%nat (session db) [] Hs) as Hw.
    destruct (WeatherService.walk _ _ _ _ _ _ _ _ _ _ _ _)
      as [rows [touched|e]]; simpl in Hw.
    + destruct commit_error; split; simpl; assumption.
    + split; simpl; assumption.
  - simpl. split; [reflexivity|].
    eapply unique_triples_perm; [apply order_by_timestamp_perm|].
    apply unique_triples_filter, Hs.
  - simpl. split; [reflexivity|].
    eapply unique_triples_perm; [apply order_by_timestamp_perm|].
    apply unique_triples_filter, Hs.
Qed.

(** ** The walk as a run of upserts *)

Section WalkEntries.

Variable fromisoformat : string -> option datetime.
Variable isoformat_error : string -> string.
Variable lookup_error : nat -> bool.
Variables temps hums : list (option float).
Variables lat lon : float.
Variable utcnow : Z -> datetime.

#[local] Abbreviation walk' :=
  (WeatherService.walk fromisoformat isoformat_error lookup_error
     temps hums lat lon utcnow).
#[local] Abbreviation entries' :=
  (entries fromisoformat isoformat_error lookup_error temps hums).
#[local] Abbreviation processed' :=
  (processed fromisoformat lookup_error temps hums).

Lemma walk_entries (tss : list string) :
  forall (i : nat) (rows : list WeatherData) (touched : list Z) (es : list entry),
    entries' i tss = Return es ->
    walk' i tss rows touched =
    (fold_left (upsert lat lon utcnow) es rows,
     Return (touched ++ touched_ids lat lon utcnow es rows)).
Proof.
  induction tss as [|s tss IH]; intros i rows touched es; simpl.
  - intros [= <-]. simpl. rewrite app_nil_r. reflexivity.
  - destruct (fromisoformat _) as [ts|]; [|discriminate].
    destruct (nth_error temps i) as [[t|]|]; [| |discriminate]; [|apply IH].
    destruct (nth_error hums i) as [[h|]|]; [| |discriminate]; [|apply IH].
    destruct (lookup_error i); [discriminate|].
    destruct (entries' (S i) tss) as [es'|] eqn:He; [|discriminate].
    intros [= <-].
    simpl. unfold touched_id, entry_ts. simpl.
    destruct (query_first ts lat lon rows) as [ex|].
    + rewrite (IH _ _ _ _ He), <- app_assoc. reflexivity.
    + rewrite (IH _ _ _ _ He), <- app_assoc. reflexivity.
Qed.

Lemma walk_raises (tss : list string) :
  forall (i : nat) (rows : list WeatherData) (touched : list Z) (e : exn),
    entries' i tss = Raise e ->
    snd (walk' i tss rows touched) = Raise e.
Proof.
  induction tss as [|s tss IH]; intros i rows touched e; simpl; [discriminate|].
  destruct (fromisoformat _) as [ts|]; [|intros [= <-]; reflexivity].
  destruct (nth_error temps i) as [[t|]|];
    [| |intros [= <-]; reflexivity]; [|apply IH].
  destruct (nth_error hums i) as [[h|]|];
    [| |intros [= <-]; reflexivity]; [|apply IH].
  destruct (lookup_error i); [intros [= <-]; reflexivity|].
  destruct (entries' (S i) tss) as [es'|e'] eqn:He; [discriminate|].
  intros [= <-].
  destruct (query_first ts lat lon rows); apply IH; exact He.
Qed.

Lemma walk_processed (tss : list string) :
  forall (i : nat) (rows : list WeatherData) (touched : list Z),
    fst (walk' i tss rows touched)
    = fold_left (upsert lat lon utcnow) (processed' i tss) rows.
Proof.
  induction tss as [|s tss IH]; intros i rows touched; simpl; [reflexivity|].
  destruct (fromisoformat _) as [ts|]; [|reflexivity].
  destruct (nth_error temps i) as [[t|]|]; [| |reflexivity]; [|apply IH].
  destruct (nth_error hums i) as [[h|]|]; [| |reflexivity]; [|apply IH].
  destruct (lookup_error i); [reflexivity|].
  simpl. destruct (query_first ts lat lon rows); apply IH.
Qed.

Lemma entries_processed (tss : list string) :
  forall (i : nat) (es : list entry),
    entries' i tss = Return es ->
    processed' i tss = es.
Proof.
  induction tss as [|s tss IH]; intros i es; simpl.
  - intros [= <-]. reflexivity.
  - destruct (fromisoformat _) as [ts|]; [|discriminate].
    destruct (nth_error temps i) as [[t|]|]; [| |discriminate]; [|apply IH].
    destruct (nth_error hums i) as [[h|]|]; [| |discriminate]; [|apply IH].
    destruct (lookup_error i); [discriminate|].
    destruct (entries' (S i) tss) as [es'|] eqn:He; [|discriminate].
    intros [= <-]. f_equal. apply IH, He.
Qed.

End WalkEntries.

(** ** Lookups and primary keys under one upsert *)

Lemma next_id_fresh (rows : list WeatherData) (r : WeatherData) :
  In r rows -> id r < next_id rows.
Proof.
  unfold next_id.
  induction rows as [|a rows IH]; simpl; [contradiction|].
  intros [<-|Hr]; [lia|]. specialize (IH Hr). lia.
Qed.

Lemma unique_ids_eq (rows : list WeatherData) (a b : WeatherData) :
  unique_ids rows -> In a rows -> In b rows -> id a = id b -> a = b.
Proof.
  unfold unique_ids. induction rows as [|x rows IH]; simpl; [contradiction|].
  intros Hn Ha Hb Hid. inversion Hn as [|? ? Hx Hn']; subst.
  destruct Ha as [->|Ha], Hb as [->|Hb]; auto.
  - exfalso. apply Hx. rewrite Hid. apply in_map, Hb.
  - exfalso. apply Hx. rewrite <- Hid. apply in_map, Ha.
Qed.

Section UpsertFacts.

Variables lat lon : float.
Variable utcnow : Z -> datetime.

#[local] Abbreviation qf := (fun ts => query_first ts lat lon).
#[local] Abbreviation fid := (first_id lat lon).
#[local] Abbreviation ups := (upsert lat lon utcnow).

Lemma query_first_in (ts : datetime) (rows : list WeatherData) (r : WeatherData) :
  qf ts rows = Some r -> In r rows /\ key_matches ts lat lon r = true.
Proof. apply find_some. Qed.

Lemma query_first_map (g : WeatherData -> WeatherData) (ts : datetime)
    (rows : list WeatherData) :
  (forall r, key_matches ts lat lon (g r) = key_matches ts lat lon r) ->
  qf ts (map g rows) = option_map g (qf ts rows).
Proof.
  intros Hg. unfold query_first.
  induction rows as [|a rows IH]; simpl; [reflexivity|].
  rewrite Hg. destruct (key_matches ts lat lon a); [reflexivity|exact IH].
Qed.

Lemma query_first_update (pk : Z) (t h : float) (ts : datetime)
    (rows : list WeatherData) :
  qf ts (update_row pk t h rows) =
  option_map (fun r => if id r =? pk then set_measurements t h r else r)
             (qf ts rows).
Proof.
  apply query_first_map. intros r. destruct (id r =? pk); reflexivity.
Qed.

Lemma first_id_update (pk : Z) (t h : float) (ts : datetime)
    (rows : list WeatherData) :
  fid ts (update_row pk t h rows) = fid ts rows.
Proof.
  unfold first_id. rewrite query_first_update.
  destruct (query_first ts lat lon rows) as [r|]; simpl; [|reflexivity].
  destruct (id r =? pk); reflexivity.
Qed.

Lemma query_first_app (ts : datetime) (rows l : list WeatherData) :
  qf ts (rows ++ l) =
  match qf ts rows with
  | Some r => Some r
  | None => qf ts l
  end.
Proof.
  unfold query_first. induction rows as [|a rows IH]; simpl; [reflexivity|].
  destruct (key_matches ts lat lon a); [reflexivity|exact IH].
Qed.

Lemma first_id_upsert_stable (ts : datetime) (rows : list WeatherData)
    (e : entry) (pk : Z) :
  fid ts rows = Some pk -> fid ts (ups rows e) = Some pk.
Proof.
  destruct e as [[ts' t] h]. unfold upsert.
  destruct (query_first ts' lat lon rows) as [ex|].
  - rewrite first_id_update. auto.
  - unfold first_id, add_row. rewrite query_first_app.
    destruct (query_first ts lat lon rows); [auto|discriminate].
Qed.

Lemma first_id_upsert_hit (rows : list WeatherData) (e : entry) :
  fid (entry_ts e) (ups rows e) = Some (touched_id lat lon rows e).
Proof.
  destruct e as [[ts t] h]. unfold upsert, touched_id, entry_ts. simpl.
  destruct (query_first ts lat lon rows) as [ex|] eqn:Hq.
  - rewrite first_id_update. unfold first_id. rewrite Hq. reflexivity.
  - unfold first_id, add_row. rewrite query_first_app, Hq.
    unfold query_first. simpl.
    unfold key_matches. simpl.
    rewrite Z.eqb_refl, !column_eq_stored_l, !column_eq_refl. reflexivity.
Qed.

Lemma upsert_ids (rows : list WeatherData) (e : entry) :
  map id (ups rows e) = map id rows
  \/ map id (ups rows e) = map id rows ++ [next_id rows].
Proof.
  destruct e as [[ts t] h]. unfold upsert.
  destruct (query_first ts lat lon rows) as [ex|].
  - left. unfold update_row. rewrite map_map. apply map_ext.
    intros r. destruct (id r =? id ex); reflexivity.
  - right. unfold add_row. rewrite map_app. reflexivity.
Qed.

Lemma unique_ids_upsert (rows : list WeatherData) (e : entry) :
  unique_ids rows -> unique_ids (ups rows e).
Proof.
  unfold unique_ids. intros Hn.
  destruct (upsert_ids rows e) as [-> | ->]; [exact Hn|].
  eapply Permutation_NoDup; [apply Permutation_cons_append|].
  constructor; [|exact Hn].
  intros Hin. apply in_map_iff in Hin. destruct Hin as (r & Hid & Hr).
  apply next_id_fresh in Hr. lia.
Qed.

Lemma unique_ids_fold (es : list entry) :
  forall rows, unique_ids rows -> unique_ids (fold_left ups es rows).
Proof.
  induction es as [|e es IH]; intros rows Hn; simpl; [exact Hn|].
  apply IH, unique_ids_upsert, Hn.
Qed.

Lemma first_id_fold_stable (ts : datetime) (pk : Z) (es : list entry) :
  forall rows, fid ts rows = Some pk -> fid ts (fold_left ups es rows) = Some pk.
Proof.
  induction es as [|e es IH]; intros rows H; simpl; [exact H|].
  apply IH, first_id_upsert_stable, H.
Qed.

End UpsertFacts.

(** ** A run of upserts on rows that are all present is a replay *)

Section ReplayFacts.

Variables lat lon : float.
Variable utcnow : Z -> datetime.

#[local] Abbreviation fid' := (first_id lat lon).
#[local] Abbreviation ups' := (upsert lat lon utcnow).
#[local] Abbreviation rep := (replay lat lon).

Lemma upd_cases (rows : list WeatherData) (x : WeatherData) (e : entry) :
  upd lat lon rows x e = x
  \/ upd lat lon rows x e = set_measurements (snd (fst e)) (snd e) x.
Proof.
  destruct e as [[ts t] h]. unfold upd. simpl.
  destruct (hit lat lon rows ts x); auto.
Qed.

Lemma replay_id (rows : list WeatherData) (es : list entry) :
  forall x, id (rep rows es x) = id x.
Proof.
  unfold replay. induction es as [|e es IH]; intros x; simpl; [reflexivity|].
  rewrite IH. destruct (upd_cases rows x e) as [-> | ->]; reflexivity.
Qed.

Lemma replay_set (rows : list WeatherData) (es : list entry) (t h : float) :
  forall x, set_measurements t h (rep rows es x) = set_measurements t h x.
Proof.
  unfold replay. induction es as [|e es IH]; intros x; simpl; [reflexivity|].
  rewrite IH. destruct (upd_cases rows x e) as [-> | ->]; reflexivity.
Qed.

Lemma upd_ext (rows rows' : list WeatherData) (e : entry) (x : WeatherData) :
  fid' (entry_ts e) rows' = fid' (entry_ts e) rows ->
  upd lat lon rows' x e = upd lat lon rows x e.
Proof.
  destruct e as [[ts t] h]. unfold upd, hit, entry_ts. simpl.
  intros ->. reflexivity.
Qed.

Lemma replay_ext (rows rows' : list WeatherData) (es : list entry) :
  Forall (fun e => fid' (entry_ts e) rows' = fid' (entry_ts e) rows) es ->
  forall x, rep rows' es x = rep rows es x.
Proof.
  unfold replay. induction 1 as [|e es He Hes IH]; intros x; simpl;
    [reflexivity|].
  rewrite (upd_ext rows rows' e x He). apply IH.
Qed.

Lemma first_id_upsert_present (ts : datetime) (rows : list WeatherData)
    (e : entry) :
  fid' ts rows <> None -> fid' ts (ups' rows e) = fid' ts rows.
Proof.
  destruct (fid' ts rows) as [pk|] eqn:H; [|congruence].
  intros _. apply first_id_upsert_stable, H.
Qed.

Lemma present_upsert (rows : list WeatherData) (es : list entry) (e : entry) :
  present lat lon rows es -> present lat lon (ups' rows e) es.
Proof.
  unfold present. intros H. eapply Forall_impl; [|exact H].
  intros a Ha. simpl in *. rewrite first_id_upsert_present; assumption.
Qed.

Lemma present_same (rows : list WeatherData) (es : list entry) (e : entry) :
  present lat lon rows es ->
  Forall (fun a => fid' (entry_ts a) (ups' rows e) = fid' (entry_ts a) rows) es.
Proof.
  unfold present. intros H. eapply Forall_impl; [|exact H].
  intros a Ha. simpl in *. apply first_id_upsert_present, Ha.
Qed.

Lemma upsert_as_map (rows : list WeatherData) (e : entry) :
  fid' (entry_ts e) rows <> None ->
  ups' rows e = map (fun r => upd lat lon rows r e) rows.
Proof.
  destruct e as [[ts t] h]. unfold upsert, upd, hit, first_id, entry_ts. simpl.
  destruct (query_first ts lat lon rows) as [ex|]; simpl; [|congruence].
  intros _. reflexivity.
Qed.

Lemma fold_as_replay (es : list entry) :
  forall rows,
    present lat lon rows es ->
    fold_left ups' es rows = map (rep rows es) rows.
Proof.
  induction es as [|e es IH]; intros rows Hp; simpl.
  - unfold replay. simpl. rewrite map_id. reflexivity.
  - inversion Hp as [|? ? He Hes]; subst.
    rewrite IH by (apply present_upsert, Hes).
    rewrite (upsert_as_map rows e He) at 2. rewrite map_map.
    apply map_ext. intros r.
    rewrite (replay_ext rows (ups' rows e) es (present_same rows es e Hes)).
    reflexivity.
Qed.

Lemma replay_app (rows : list WeatherData) (es : list entry) (e : entry)
    (x : WeatherData) :
  rep rows (es ++ [e]) x = upd lat lon rows (rep rows es x) e.
Proof. unfold replay. rewrite fold_left_app. reflexivity. Qed.

Lemma settled_step (rows : list WeatherData) (es : list entry) (e : entry) :
  present lat lon rows es ->
  settled lat lon rows es ->
  settled lat lon (ups' rows e) (es ++ [e]).
Proof.
  intros Hp Hs r' Hr'. rewrite replay_app.
  rewrite (replay_ext rows (ups' rows e) es (present_same rows es e Hp)).
  destruct e as [[ts t] h].
  assert (Hfid : fid' ts (ups' rows (ts, t, h))
                 = Some (touched_id lat lon rows (ts, t, h)))
    by apply (first_id_upsert_hit lat lon utcnow rows (ts, t, h)).
  unfold upd, hit. rewrite Hfid, replay_id.
  unfold upsert, touched_id, entry_ts in *. simpl in *.
  destruct (query_first ts lat lon rows) as [ex|] eqn:Hq.
  - unfold update_row in Hr'. apply in_map_iff in Hr'.
    destruct Hr' as (r & <- & Hr).
    destruct (id r =? id ex) eqn:Hid.
    + replace (id (set_measurements t h r) =? id ex) with true by (symmetry; exact Hid).
      rewrite replay_set. reflexivity.
    + rewrite Hid. apply Hs, Hr.
  - unfold add_row in Hr'. apply in_app_iff in Hr'.
    destruct Hr' as [Hr|[<-|[]]].
    + pose proof (next_id_fresh rows r' Hr) as Hlt.
      replace (id r' =? next_id rows) with false by (symmetry; apply Z.eqb_neq; lia).
      apply Hs, Hr.
    + simpl. rewrite Z.eqb_refl.
      rewrite replay_set. reflexivity.
Qed.

Lemma fold_settled (es : list entry) (rows : list WeatherData) :
  present lat lon (fold_left ups' es rows) es
  /\ settled lat lon (fold_left ups' es rows) es.
Proof.
  induction es as [|e es IH] using rev_ind.
  - split; [constructor|]. intros r _. reflexivity.
  - rewrite fold_left_app. simpl. destruct IH as [Hp Hs]. split.
    + apply Forall_app. split.
      * apply present_upsert, Hp.
      * constructor; [|constructor].
        rewrite (first_id_upsert_hit lat lon utcnow). discriminate.
    + apply settled_step; assumption.
Qed.

End ReplayFacts.

(** Running the same entries again changes nothing. *)
Lemma fold_idempotent (lat lon : float) (utcnow utcnow' : Z -> datetime)
    (es : list entry) (rows : list WeatherData) :
  fold_left (upsert lat lon utcnow') es (fold_left (upsert lat lon utcnow) es rows)
  = fold_left (upsert lat lon utcnow) es rows.
Proof.
  destruct (fold_settled lat lon utcnow es rows) as [Hp Hs].
  rewrite (fold_as_replay lat lon utcnow' es _ Hp).
  rewrite <- (map_id (fold_left (upsert lat lon utcnow) es rows)) at 3.
  apply map_ext_in. exact Hs.
Qed.

(** ** The primary keys touched by a run *)

Section TouchedFacts.

Variables lat lon : float.

Lemma touched_ids_final (utcnow : Z -> datetime) (es : list entry) :
  forall rows,
    map (fun e => first_id lat lon (entry_ts e)
                    (fold_left (upsert lat lon utcnow) es rows)) es
    = map Some (touched_ids lat lon utcnow es rows).
Proof.
  induction es as [|e es IH]; intros rows; simpl; [reflexivity|].
  f_equal; [|apply IH].
  apply first_id_fold_stable, first_id_upsert_hit.
Qed.

Lemma touched_ids_present (utcnow : Z -> datetime) (es : list entry) :
  forall rows,
    present lat lon rows es ->
    map Some (touched_ids lat lon utcnow es rows)
    = map (fun e => first_id lat lon (entry_ts e) rows) es.
Proof.
  induction es as [|e es IH]; intros rows Hp; simpl; [reflexivity|].
  inversion Hp as [|? ? He Hes]; subst. f_equal.
  - unfold touched_id, first_id in *.
    destruct (query_first (entry_ts e) lat lon rows); simpl in *;
      [reflexivity|congruence].
  - rewrite IH by (apply present_upsert, Hes).
    pose proof (present_same lat lon utcnow rows es e Hes) as Hsame.
    clear -Hsame. induction Hsame as [|a es Ha Hes IH]; simpl; [reflexivity|].
    rewrite Ha, IH. reflexivity.
Qed.

Lemma map_Some_inj (A : Type) (l l' : list A) :
  map Some l = map Some l' -> l = l'.
Proof.
  revert l'. induction l as [|a l IH]; intros [|b l']; simpl;
    try discriminate; [reflexivity|].
  intros [= -> H]. f_equal. apply IH, H.
Qed.

Lemma touched_ids_again (utcnow utcnow' : Z -> datetime) (es : list entry)
    (rows : list WeatherData) :
  touched_ids lat lon utcnow' es (fold_left (upsert lat lon utcnow) es rows)
  = touched_ids lat lon utcnow es rows.
Proof.
  apply map_Some_inj.
  rewrite touched_ids_present by apply (fold_settled lat lon utcnow es rows).
  apply touched_ids_final.
Qed.

End TouchedFacts.

(** ** What a successful call did *)

Section ProcessFacts.

Variable fromisoformat : string -> option datetime.
Variable isoformat_error : string -> string.
Variable lookup_error : nat -> bool.

#[local] Abbreviation process :=
  (WeatherService.process_and_store_weather_data
     fromisoformat isoformat_error lookup_error).
#[local] Abbreviation entries_of :=
  (fun api_hourly : hourly =>
     entries fromisoformat isoformat_error lookup_error
       (temperatures api_hourly) (humidities api_hourly)
       0%nat (timestamps api_hourly)).
#[local] Abbreviation processed_of :=
  (fun api_hourly : hourly =>
     processed fromisoformat lookup_error
       (temperatures api_hourly) (humidities api_hourly)
       0%nat (timestamps api_hourly)).

Lemma process_returns
    (commit_error : option string) (utcnow : Z -> datetime) (api_hourly : hourly)
    (lat lon : float) (db db1 : db_state) (recs : list WeatherData) :
  process commit_error utcnow api_hourly lat lon db = (db1, Return recs) ->
  exists es,
    entries_of api_hourly = Return es
    /\ commit_error = None
    /\ db1 = {| table := fold_left (upsert lat lon utcnow) es (session db);
                session := fold_left (upsert lat lon utcnow) es (session db) |}
    /\ recs = rows_of (fold_left (upsert lat lon utcnow) es (session db))
                      (touched_ids lat lon utcnow es (session db)).
Proof.
  unfold WeatherService.process_and_store_weather_data.
  destruct (entries_of api_hourly) as [es|e] eqn:He.
  - rewrite (walk_entries _ _ _ _ _ lat lon utcnow _ _ (session db) [] es He).
    simpl. destruct commit_error as [msg|]; [discriminate|].
    unfold commit. simpl. intros [= <- <-]. exists es. auto.
  - pose proof (walk_raises _ _ _ _ _ lat lon utcnow _ _ (session db) [] e He)
      as Hr.
    destruct (WeatherService.walk _ _ _ _ _ _ _ _ _ _ _ _)
      as [rows [touched|e']];
      simpl in Hr; [discriminate|]. discriminate.
Qed.

Lemma process_entries
    (utcnow : Z -> datetime) (api_hourly : hourly)
    (lat lon : float) (db : db_state) (es : list entry) :
  entries_of api_hourly = Return es ->
  process None utcnow api_hourly lat lon db
  = ({| table := fold_left (upsert lat lon utcnow) es (session db);
        session := fold_left (upsert lat lon utcnow) es (session db) |},
     Return (rows_of (fold_left (upsert lat lon utcnow) es (session db))
                     (touched_ids lat lon utcnow es (session db)))).
Proof.
  intros He. unfold WeatherService.process_and_store_weather_data.
  rewrite (walk_entries _ _ _ _ _ lat lon utcnow _ _ (session db) [] es He).
  reflexivity.
Qed.

Lemma process_raises
    (commit_error : option string) (utcnow : Z -> datetime) (api_hourly : hourly)
    (lat lon : float) (db : db_state) (e : exn) :
  entries_of api_hourly = Raise e ->
  process commit_error utcnow api_hourly lat lon db
  = ({| table := table db;
        session := fold_left (upsert lat lon utcnow) (processed_of api_hourly)
                     (session db) |},
     Raise e).
Proof.
  intros He. unfold WeatherService.process_and_store_weather_data.
  pose proof (walk_raises _ _ _ _ _ lat lon utcnow _ _ (session db) [] e He)
    as Hr.
  pose proof (walk_processed fromisoformat isoformat_error lookup_error
                (temperatures api_hourly) (humidities api_hourly)
                lat lon utcnow (timestamps api_hourly)
                0%nat (session db) []) as Hp.
  destruct (WeatherService.walk _ _ _ _ _ _ _ _ _ _ _ _)
    as [rows [touched|e']];
    simpl in Hr, Hp; [discriminate|].
  injection Hr as ->. rewrite Hp. reflexivity.
Qed.

Lemma process_commit_fails
    (msg : string) (utcnow : Z -> datetime) (api_hourly : hourly)
    (lat lon : float) (db : db_state) (es : list entry) :
  entries_of api_hourly = Return es ->
  process (Some msg) utcnow api_hourly lat lon db
  = ({| table := table db; session := table db |},
     Raise (Exception ("Failed to store weather data: " ++ msg))).
Proof.
  intros He. unfold WeatherService.process_and_store_weather_data.
  rewrite (walk_entries _ _ _ _ _ lat lon utcnow _ _ (session db) [] es He).
  reflexivity.
Qed.

End ProcessFacts.

(** C2.  Reconcile is idempotent: for every series, coordinate pair and
    store, calling it a second time with the same series and coordinates
    (whatever the clock then reads, the database answering the lookups and
    the commit as before) gives the outcome of the first call again and
    leaves the store exactly as the first call left it; so the second call
    creates no row. *)
Theorem C2_reconcile_idempotent
    (fromisoformat : string -> option datetime)
    (isoformat_error : string -> string) (lookup_error : nat -> bool)
    (commit_error : option string) (utcnow utcnow' : Z -> datetime)
    (api_hourly : hourly) (lat lon : float) (db : db_state) :
  WeatherService.process_and_store_weather_data
    fromisoformat isoformat_error lookup_error commit_error utcnow'
    api_hourly lat lon
    (fst (WeatherService.process_and_store_weather_data
            fromisoformat isoformat_error lookup_error commit_error utcnow
            api_hourly lat lon db))
  = WeatherService.process_and_store_weather_data
      fromisoformat isoformat_error lookup_error commit_error utcnow
      api_hourly lat lon db.
Proof.
  destruct (entries fromisoformat isoformat_error lookup_error
              (temperatures api_hourly) (humidities api_hourly)
              0%nat (timestamps api_hourly))
    as [es|e] eqn:He.
  - destruct commit_error as [msg|].
    + rewrite !(process_commit_fails _ _ _ msg _ _ lat lon _ es He).
      reflexivity.
    + rewrite (process_entries _ _ _ utcnow _ lat lon db es He). simpl.
      rewrite (process_entries _ _ _ utcnow' _ lat lon _ es He). simpl.
      rewrite fold_idempotent, touched_ids_again. reflexivity.
  - rewrite (process_raises _ _ _ commit_error utcnow _ lat lon db e He).
    simpl.
    rewrite (process_raises _ _ _ commit_error utcnow' _ lat lon _ e He).
    simpl.
    rewrite fold_idempotent. reflexivity.
Qed.

(** ** Reading back what a call returned *)

Lemma rows_of_in (rows : list WeatherData) (pks : list Z) (rec : WeatherData) :
  In rec (rows_of rows pks) ->
  exists pk, In pk pks /\ In rec rows /\ id rec = pk.
Proof.
  induction pks as [|pk pks IH]; simpl; [contradiction|].
  destruct (row_of rows pk) as [r|] eqn:Hr.
  - intros [<-|Hin].
    + apply find_some in Hr. destruct Hr as [Hr Hid].
      exists pk. rewrite Z.eqb_eq in Hid. auto.
    + destruct (IH Hin) as (pk' & H1 & H2). exists pk'. auto.
  - intros Hin. destruct (IH Hin) as (pk' & H1 & H2). exists pk'. auto.
Qed.

Lemma touched_ids_in (lat lon : float) (utcnow : Z -> datetime) (es : list entry)
    (rows : list WeatherData) (pk : Z) :
  In pk (touched_ids lat lon utcnow es rows) ->
  exists e, In e es
    /\ first_id lat lon (entry_ts e) (fold_left (upsert lat lon utcnow) es rows)
       = Some pk.
Proof.
  intros Hin. apply (in_map Some) in Hin.
  rewrite <- touched_ids_final in Hin.
  apply in_map_iff in Hin. destruct Hin as (e & He & Hin). eauto.
Qed.

Lemma returned_row (lat lon : float) (utcnow : Z -> datetime) (es : list entry)
    (rows : list WeatherData) (rec : WeatherData) :
  unique_ids rows ->
  In rec (rows_of (fold_left (upsert lat lon utcnow) es rows)
                  (touched_ids lat lon utcnow es rows)) ->
  In rec (fold_left (upsert lat lon utcnow) es rows)
  /\ column_eq (latitude rec) lat = true
  /\ column_eq (longitude rec) lon = true.
Proof.
  intros Hu Hin. apply rows_of_in in Hin.
  destruct Hin as (pk & Hpk & Hrec & Hid).
  split; [exact Hrec|].
  apply touched_ids_in in Hpk. destruct Hpk as (e & _ & Hf).
  unfold first_id in Hf.
  destruct (query_first (entry_ts e) lat lon _) as [ex|] eqn:Hq;
    [|discriminate].
  simpl in Hf. injection Hf as Hex.
  apply query_first_in in Hq. destruct Hq as [Hexin Hkey].
  assert (rec = ex) as ->.
  { apply (unique_ids_eq (fold_left (upsert lat lon utcnow) es rows));
      [apply unique_ids_fold, Hu | exact Hrec | exact Hexin | congruence]. }
  unfold key_matches in Hkey.
  apply andb_true_iff in Hkey. destruct Hkey as [Hkey Hlon].
  apply andb_true_iff in Hkey. destruct Hkey as [_ Hlat]. auto.
Qed.

(** ** The row of one triple through a run of upserts *)

Lemma unique_triples_eq (rows : list WeatherData) (a b : WeatherData) :
  unique_triples rows = true ->
  In a rows -> In b rows -> same_triple a b = true -> a = b.
Proof.
  induction rows as [|x rows IH]; [contradiction|].
  rewrite unique_triples_cons_inv. intros [Hall Hu] Ha Hb Hs.
  destruct Ha as [->|Ha], Hb as [->|Hb]; auto.
  - rewrite (Hall b Hb) in Hs. discriminate.
  - rewrite same_triple_sym, (Hall a Ha) in Hs. discriminate.
Qed.

Lemma key_matches_same_triple (ts : datetime) (lat lon : float)
    (a b : WeatherData) :
  key_matches ts lat lon a = true -> key_matches ts lat lon b = true ->
  same_triple a b = true.
Proof.
  unfold same_triple, key_matches. intros Ha Hb.
  apply andb_true_iff in Ha. destruct Ha as [Ha Ha3].
  apply andb_true_iff in Ha. destruct Ha as [Ha1 Ha2].
  apply andb_true_iff in Hb. destruct Hb as [Hb Hb3].
  apply andb_true_iff in Hb. destruct Hb as [Hb1 Hb2].
  apply Z.eqb_eq in Ha1, Hb1.
  rewrite column_eq_sym in Hb2, Hb3.
  rewrite (column_eq_trans _ _ _ Ha2 Hb2), (column_eq_trans _ _ _ Ha3 Hb3).
  replace (timestamp a =? timestamp b) with true
    by (symmetry; apply Z.eqb_eq; congruence).
  reflexivity.
Qed.

Lemma filter_unique (ts : datetime) (lat lon : float)
    (rows : list WeatherData) (r : WeatherData) :
  unique_triples rows = true ->
  In r rows -> key_matches ts lat lon r = true ->
  filter (key_matches ts lat lon) rows = [r].
Proof.
  induction rows as [|x rows IH]; [contradiction|].
  rewrite unique_triples_cons_inv. intros [Hall Hu] Hin Hk. simpl.
  destruct (key_matches ts lat lon x) eqn:Hx.
  - assert (Hnone : filter (key_matches ts lat lon) rows = []).
    { destruct (filter (key_matches ts lat lon) rows) as [|y l] eqn:Hf;
        [reflexivity|].
      assert (Hy : In y (filter (key_matches ts lat lon) rows))
        by (rewrite Hf; left; reflexivity).
      apply filter_In in Hy. destruct Hy as [Hy Hky].
      pose proof (Hall y Hy) as Hxy.
      rewrite (key_matches_same_triple ts lat lon x y Hx Hky) in Hxy.
      discriminate. }
    rewrite Hnone. destruct Hin as [->|Hin]; [reflexivity|].
    pose proof (Hall r Hin) as Hxr.
    rewrite (key_matches_same_triple ts lat lon x r Hx Hk) in Hxr.
    discriminate.
  - destruct Hin as [->|Hin]; [congruence|]. apply IH; assumption.
Qed.

Section TripleFacts.

Variables lat lon : float.
Variable utcnow : Z -> datetime.

#[local] Abbreviation ups2 := (upsert lat lon utcnow).

Lemma unique_triples_fold (es : list entry) :
  forall rows,
    unique_triples rows = true ->
    unique_triples (fold_left ups2 es rows) = true.
Proof.
  induction es as [|[[ts t] h] es IH]; intros rows Hu; simpl; [exact Hu|].
  apply IH. destruct (query_first ts lat lon rows) eqn:Hq.
  - rewrite unique_triples_update. exact Hu.
  - apply unique_triples_add; assumption.
Qed.

(** An upsert for another timestamp leaves the row of [ts] as it is. *)
Lemma query_first_upsert_other (ts : datetime) (rows : list WeatherData)
    (r : WeatherData) (e : entry) :
  unique_ids rows ->
  query_first ts lat lon rows = Some r ->
  entry_ts e <> ts ->
  query_first ts lat lon (ups2 rows e) = Some r.
Proof.
  destruct e as [[ts' t] h]. unfold entry_ts, upsert. simpl.
  intros Hu Hq Hne.
  destruct (query_first ts' lat lon rows) as [ex|] eqn:Hq'.
  - rewrite query_first_update, Hq. simpl.
    destruct (id r =? id ex) eqn:Hid; [|reflexivity].
    exfalso. apply Z.eqb_eq in Hid.
    apply query_first_in in Hq, Hq'.
    destruct Hq as [Hr Hk], Hq' as [Hex Hk'].
    assert (r = ex) as -> by (eapply unique_ids_eq; eauto).
    unfold key_matches in Hk, Hk'.
    apply andb_true_iff in Hk. destruct Hk as [Hk _].
    apply andb_true_iff in Hk. destruct Hk as [Hk _].
    apply andb_true_iff in Hk'. destruct Hk' as [Hk' _].
    apply andb_true_iff in Hk'. destruct Hk' as [Hk' _].
    apply Z.eqb_eq in Hk, Hk'. congruence.
  - unfold add_row. rewrite query_first_app, Hq. reflexivity.
Qed.

Lemma query_first_fold_other (ts : datetime) (es : list entry) :
  forall (rows : list WeatherData) (r : WeatherData),
    unique_ids rows ->
    query_first ts lat lon rows = Some r ->
    Forall (fun e => entry_ts e <> ts) es ->
    query_first ts lat lon (fold_left ups2 es rows) = Some r.
Proof.
  induction es as [|e es IH]; intros rows r Hu Hq Hf; simpl; [exact Hq|].
  inversion Hf as [|? ? He Hes]; subst.
  apply IH; [apply unique_ids_upsert, Hu| |exact Hes].
  apply query_first_upsert_other; assumption.
Qed.

(** Whatever happens before, the row of [ts] keeps every field but the two
    measurements. *)
Lemma query_first_fold_frame (ts : datetime) (es : list entry) :
  forall (rows : list WeatherData) (r0 : WeatherData),
    query_first ts lat lon rows = Some r0 ->
    exists ra,
      query_first ts lat lon (fold_left ups2 es rows) = Some ra
      /\ forall t h, set_measurements t h ra = set_measurements t h r0.
Proof.
  induction es as [|[[ts' t'] h'] es IH]; intros rows r0 Hq; simpl.
  - exists r0. auto.
  - destruct (query_first ts' lat lon rows) as [ex|] eqn:Hq'.
    + destruct (IH (update_row (id ex) t' h' rows)
                   (if id r0 =? id ex then set_measurements t' h' r0 else r0))
        as (ra & Hra & Hset).
      { rewrite query_first_update, Hq. reflexivity. }
      exists ra. split; [exact Hra|]. intros t h. rewrite Hset.
      destruct (id r0 =? id ex); reflexivity.
    + apply IH. unfold add_row. rewrite query_first_app, Hq. reflexivity.
Qed.

(** After an upsert of [(ts, t, h)] the row of [ts] carries what the
    columns keep of [t] and [h]; it is the former row of [ts], when there
    was one. *)
Lemma query_first_upsert_sets (ts : datetime) (t h : float)
    (rows : list WeatherData) :
  exists rb,
    query_first ts lat lon (ups2 rows (ts, t, h)) = Some rb
    /\ temperature_2m rb = stored t /\ relative_humidity_2m rb = stored h
    /\ forall ra, query_first ts lat lon rows = Some ra ->
                  rb = set_measurements t h ra.
Proof.
  unfold upsert. destruct (query_first ts lat lon rows) as [ra|] eqn:Hq.
  - exists (set_measurements t h ra). rewrite query_first_update, Hq. simpl.
    rewrite Z.eqb_refl. repeat split. intros ? [= <-]. reflexivity.
  - eexists. unfold add_row. rewrite query_first_app, Hq.
    unfold query_first. simpl. unfold key_matches. simpl.
    rewrite Z.eqb_refl, !column_eq_stored_l, !column_eq_refl. simpl.
    repeat split. intros ?; discriminate.
Qed.

Lemma fold_last_value (ts : datetime) (t h : float) (es1 es2 : list entry)
    (rows : list WeatherData) :
  unique_ids rows ->
  Forall (fun e => entry_ts e <> ts) es2 ->
  exists r,
    query_first ts lat lon (fold_left ups2 (es1 ++ (ts, t, h) :: es2) rows)
    = Some r
    /\ temperature_2m r = stored t /\ relative_humidity_2m r = stored h
    /\ forall r0, query_first ts lat lon rows = Some r0 ->
                  r = set_measurements t h r0.
Proof.
  intros Hu Hes2. rewrite fold_left_app. cbn [fold_left].
  destruct (query_first_upsert_sets ts t h (fold_left ups2 es1 rows))
    as (rb & Hrb & Ht & Hh & Hframe).
  exists rb. split; [|split; [exact Ht|split; [exact Hh|]]].
  - apply query_first_fold_other; auto.
    apply unique_ids_upsert, unique_ids_fold, Hu.
  - intros r0 Hr0.
    destruct (query_first_fold_frame ts es1 rows r0 Hr0) as (ra & Hra & Hset).
    rewrite (Hframe ra Hra). apply Hset.
Qed.

End TripleFacts.

(** ** From an index of the series to its entry *)

Section EntriesFacts.

Variable fromisoformat : string -> option datetime.
Variable isoformat_error : string -> string.
Variable lookup_error : nat -> bool.
Variables temps hums : list (option float).

#[local] Abbreviation entries2 :=
  (entries fromisoformat isoformat_error lookup_error temps hums).
#[local] Abbreviation parse :=
  (fun s : string => fromisoformat (replace "T" " " s)).

Lemma entries_sources (tss : list string) :
  forall (i : nat) (es : list entry),
    entries2 i tss = Return es ->
    Forall (fun e => exists j s,
              nth_error tss j = Some s /\ parse s = Some (entry_ts e)) es.
Proof.
  induction tss as [|s0 tss IH]; intros i es; simpl.
  - intros [= <-]. constructor.
  - assert (Hlift : forall es',
      Forall (fun e => exists j s,
                nth_error tss j = Some s /\ parse s = Some (entry_ts e)) es' ->
      Forall (fun e => exists j s,
                nth_error (s0 :: tss) j = Some s /\ parse s = Some (entry_ts e)) es').
    { intros es' H. eapply Forall_impl; [|exact H].
      intros e (j & s & Hj & Hs). exists (S j), s. auto. }
    destruct (fromisoformat _) as [ts|] eqn:Hp; [|discriminate].
    destruct (nth_error temps i) as [[t|]|]; [| |discriminate];
      [|intros H; apply Hlift, (IH _ _ H)].
    destruct (nth_error hums i) as [[h|]|]; [| |discriminate];
      [|intros H; apply Hlift, (IH _ _ H)].
    destruct (lookup_error i); [discriminate|].
    destruct (entries2 (S i) tss) as [es'|] eqn:He; [|discriminate].
    intros [= <-]. constructor.
    + exists 0%nat, s0. split; [reflexivity|exact Hp].
    + apply Hlift, (IH _ _ He).
Qed.

Lemma entries_split (tss : list string) :
  forall (i0 k : nat) (es : list entry) (s : string) (ts : datetime)
         (t h : float),
    entries2 i0 tss = Return es ->
    nth_error tss k = Some s ->
    parse s = Some ts ->
    nth_error temps (i0 + k) = Some (Some t) ->
    nth_error hums (i0 + k) = Some (Some h) ->
    (forall j s', (k < j)%nat -> nth_error tss j = Some s' ->
                  parse s' <> Some ts) ->
    exists es1 es2,
      es = es1 ++ (ts, t, h) :: es2
      /\ Forall (fun e => entry_ts e <> ts) es2.
Proof.
  induction tss as [|s0 tss IH]; intros i0 k es s ts t h He Hk Hs Ht Hh Hlater.
  - destruct k; discriminate.
  - destruct k as [|k]; simpl in Hk, He.
    + injection Hk as ->. rewrite Nat.add_0_r in Ht, Hh.
      simpl in Hs. rewrite Hs, Ht, Hh in He.
      destruct (lookup_error i0); [discriminate|].
      destruct (entries2 (S i0) tss) as [es'|] eqn:He'; [|discriminate].
      injection He as <-. exists [], es'. split; [reflexivity|].
      pose proof (entries_sources tss _ _ He') as Hsrc.
      eapply Forall_impl; [|exact Hsrc].
      intros e (j & s' & Hj & Hs') Heq.
      apply (Hlater (S j) s'); [lia|exact Hj|]. rewrite Hs'. congruence.
    + rewrite <- plus_n_Sm in Ht, Hh.
      assert (Hlater' : forall j s', (k < j)%nat -> nth_error tss j = Some s' ->
                                     parse s' <> Some ts).
      { intros j s' Hj Hn. apply (Hlater (S j) s'); [lia|exact Hn]. }
      destruct (fromisoformat _) as [ts0|]; [|discriminate].
      destruct (nth_error temps i0) as [[t0|]|]; [| |discriminate];
        [|apply (IH (S i0) k es s ts t h); assumption].
      destruct (nth_error hums i0) as [[h0|]|]; [| |discriminate];
        [|apply (IH (S i0) k es s ts t h); assumption].
      destruct (lookup_error i0); [discriminate|].
      destruct (entries2 (S i0) tss) as [es'|] eqn:He'; [|discriminate].
      injection He as <-.
      destruct (IH (S i0) k es' s ts t h He' Hk Hs Ht Hh Hlater')
        as (es1 & es2 & -> & Hf).
      exists ((ts0, t0, h0) :: es1), es2. split; [reflexivity|exact Hf].
Qed.

End EntriesFacts.

(** C4.  Round trip.  A reconcile at [(lat, lon)] on a store with unique
    primary keys has returned.  Then the location query with the same
    coordinates, whose cut-off [now - hours] is a [datetime], returns every
    record that the call returned and that is not older than the cut-off, as
    it is; and for every hour of the series that is not skipped (and whose
    timestamp does not come again later in the series) and is not older
    than the cut-off, it returns a row with that timestamp whose temperature
    and humidity are what the [Float] columns keep of the values of the
    series: the same numbers, and the very same floats unless the value is
    a negative zero, which is read back as [0.0]. *)
Theorem C4_round_trip
    (fromisoformat : string -> option datetime)
    (isoformat_error : string -> string) (lookup_error : nat -> bool)
    (commit_error : option string) (utcnow : Z -> datetime)
    (api_hourly : hourly) (lat lon : float)
    (db db1 : db_state) (recs : list WeatherData)
    (now : datetime) (hours : Z) :
  unique_ids (session db) ->
  WeatherService.process_and_store_weather_data
    fromisoformat isoformat_error lookup_error commit_error utcnow
    api_hourly lat lon db = (db1, Return recs) ->
  is_datetime now ->
  is_datetime (now - timedelta_hours hours) ->
  (forall rec, In rec recs ->
     now - timedelta_hours hours <= timestamp rec ->
     In rec (snd (WeatherService.get_weather_data_by_location
                    now lat lon hours db1)))
  /\
  (forall (i : nat) (s : string) (ts : datetime) (t h : float),
     nth_error (timestamps api_hourly) i = Some s ->
     fromisoformat (replace "T" " " s) = Some ts ->
     nth_error (temperatures api_hourly) i = Some (Some t) ->
     nth_error (humidities api_hourly) i = Some (Some h) ->
     (forall j s', (i < j)%nat ->
                   nth_error (timestamps api_hourly) j = Some s' ->
                   fromisoformat (replace "T" " " s') <> Some ts) ->
     now - timedelta_hours hours <= ts ->
     exists r,
       In r (snd (WeatherService.get_weather_data_by_location
                    now lat lon hours db1))
       /\ timestamp r = ts
       /\ temperature_2m r = stored t
       /\ relative_humidity_2m r = stored h
       /\ same_value (temperature_2m r) t
       /\ same_value (relative_humidity_2m r) h
       /\ (t <> S754_zero true -> temperature_2m r = t)
       /\ (h <> S754_zero true -> relative_humidity_2m r = h)).
Proof.
  intros Hu H _ _. apply process_returns in H.
  destruct H as (es & He & _ & -> & ->).
  assert (Hread : forall r,
            In r (fold_left (upsert lat lon utcnow) es (session db)) ->
            column_eq (latitude r) lat = true ->
            column_eq (longitude r) lon = true ->
            now - timedelta_hours hours <= timestamp r ->
            In r (snd (WeatherService.get_weather_data_by_location
                         now lat lon hours
                         {| table := fold_left (upsert lat lon utcnow) es (session db);
                            session := fold_left (upsert lat lon utcnow) es (session db) |}))).
  { intros r Hr Hlat Hlon Hh.
    unfold WeatherService.get_weather_data_by_location. simpl.
    apply order_by_timestamp_in, filter_In. split; [exact Hr|].
    rewrite Hlat, Hlon. simpl. apply Z.leb_le. exact Hh. }
  split.
  - intros rec Hin Hcut. apply returned_row in Hin; [|exact Hu].
    destruct Hin as (Hrec & Hlat & Hlon).
    apply Hread; assumption.
  - intros i s ts t h Hi Hs Ht Hh Hlater Hcut.
    destruct (entries_split fromisoformat isoformat_error lookup_error
                _ _ _ 0%nat i es s ts t h
                He Hi Hs Ht Hh Hlater) as (es1 & es2 & -> & Hes2).
    destruct (fold_last_value lat lon utcnow ts t h es1 es2 (session db) Hu Hes2)
      as (r & Hq & Hrt & Hrh & _).
    apply query_first_in in Hq. destruct Hq as [Hr Hk].
    unfold key_matches in Hk.
    apply andb_true_iff in Hk. destruct Hk as [Hk Hlon].
    apply andb_true_iff in Hk. destruct Hk as [Hts Hlat].
    apply Z.eqb_eq in Hts.
    exists r. split; [apply Hread; try assumption; rewrite Hts; exact Hcut|].
    split; [exact Hts|]. split; [exact Hrt|]. split; [exact Hrh|].
    rewrite Hrt, Hrh.
    split; [apply same_value_stored|]. split; [apply same_value_stored|].
    split; apply stored_exact.
Qed.

(** C5.  A store with unique primary keys and unique triples holds the row
    [r0] for [(ts, lat, lon)].  After a reconcile that has returned and
    whose series carries [(t, h)] at the last index with timestamp [ts], the
    committed rows of that triple are exactly one row; its primary key,
    creation time, timestamp and coordinates are those of [r0], and its
    temperature and humidity are what the [Float] columns keep of [t] and
    [h] (the same numbers; a negative zero is kept as [0.0]). *)
Theorem C5_update_in_place
    (fromisoformat : string -> option datetime)
    (isoformat_error : string -> string) (lookup_error : nat -> bool)
    (commit_error : option string) (utcnow : Z -> datetime)
    (api_hourly : hourly) (lat lon : float)
    (db db1 : db_state) (recs : list WeatherData)
    (r0 : WeatherData) (i : nat) (s : string) (ts : datetime) (t h : float) :
  unique_ids (session db) ->
  unique_triples (session db) = true ->
  In r0 (session db) ->
  key_matches ts lat lon r0 = true ->
  nth_error (timestamps api_hourly) i = Some s ->
  fromisoformat (replace "T" " " s) = Some ts ->
  nth_error (temperatures api_hourly) i = Some (Some t) ->
  nth_error (humidities api_hourly) i = Some (Some h) ->
  (forall j s', (i < j)%nat -> nth_error (timestamps api_hourly) j = Some s' ->
                fromisoformat (replace "T" " " s') <> Some ts) ->
  WeatherService.process_and_store_weather_data
    fromisoformat isoformat_error lookup_error commit_error utcnow
    api_hourly lat lon db = (db1, Return recs) ->
  exists r1,
    filter (key_matches ts lat lon) (session db1) = [r1]
    /\ table db1 = session db1
    /\ id r1 = id r0
    /\ created_at r1 = created_at r0
    /\ timestamp r1 = timestamp r0
    /\ latitude r1 = latitude r0
    /\ longitude r1 = longitude r0
    /\ temperature_2m r1 = stored t
    /\ relative_humidity_2m r1 = stored h
    /\ same_value (temperature_2m r1) t
    /\ same_value (relative_humidity_2m r1) h.
Proof.
  intros Hids Htri Hr0 Hk0 Hi Hs Ht Hh Hlater H.
  exists (set_measurements t h r0).
  split; [|simpl; repeat split; try apply same_value_stored;
           apply process_returns in H; destruct H as (es & _ & _ & -> & _);
           reflexivity].
  apply process_returns in H. destruct H as (es & He & _ & -> & _). simpl.
  destruct (entries_split fromisoformat isoformat_error lookup_error
              _ _ _ 0%nat i es s ts t h
              He Hi Hs Ht Hh Hlater) as (es1 & es2 & -> & Hes2).
  destruct (fold_last_value lat lon utcnow ts t h es1 es2 (session db) Hids Hes2)
    as (r & Hq & _ & _ & Hframe).
  assert (Hq0 : query_first ts lat lon (session db) = Some r0).
  { destruct (query_first ts lat lon (session db)) as [r'|] eqn:Hq'.
    - apply query_first_in in Hq'. destruct Hq' as [Hr' Hk'].
      f_equal. apply (unique_triples_eq (session db)); auto.
      apply (key_matches_same_triple ts lat lon); assumption.
    - unfold query_first in Hq'. rewrite (find_none _ _ Hq' r0 Hr0) in Hk0.
      discriminate. }
  rewrite <- (Hframe r0 Hq0).
  apply query_first_in in Hq. destruct Hq as [Hr Hk].
  apply filter_unique; auto.
  apply unique_triples_fold, Htri.
Qed.

(** ** The query layer *)


(** ** Indexing the measurement arrays *)

(** The first index with [P] in a window, every index before it having
    [Q], seen from one index further on. *)
Lemma first_shift (P Q : nat -> Prop) (i n : nat) :
  ~ P i -> Q i ->
  (exists k, (k < S n)%nat /\ P (i + k)%nat
             /\ forall k', (k' < k)%nat -> Q (i + k')%nat) <->
  (exists k, (k < n)%nat /\ P (S i + k)%nat
             /\ forall k', (k' < k)%nat -> Q (S i + k')%nat).
Proof.
  intros HP HQ. split.
  - intros ([|k] & Hk & Hbad & Hbefore).
    + rewrite Nat.add_0_r in Hbad. contradiction.
    + exists k. split; [lia|]. split.
      * rewrite <- plus_n_Sm in Hbad. exact Hbad.
      * intros k' Hk'. specialize (Hbefore (S k')).
        rewrite <- plus_n_Sm in Hbefore. apply Hbefore. lia.
  - intros (k & Hk & Hbad & Hbefore). exists (S k). split; [lia|]. split.
    + rewrite <- plus_n_Sm. exact Hbad.
    + intros [|k'] Hk'.
      * rewrite Nat.add_0_r. exact HQ.
      * rewrite <- plus_n_Sm. apply Hbefore. lia.
Qed.

Lemma first_blocked (P Q : nat -> Prop) (i n : nat) :
  ~ P i -> ~ Q i ->
  ~ (exists k, (k < n)%nat /\ P (i + k)%nat
               /\ forall k', (k' < k)%nat -> Q (i + k')%nat).
Proof.
  intros HP HQ ([|k] & Hk & Hbad & Hbefore).
  - rewrite Nat.add_0_r in Hbad. contradiction.
  - apply HQ. specialize (Hbefore 0%nat). rewrite Nat.add_0_r in Hbefore.
    apply Hbefore. lia.
Qed.

Section IndexFacts.

Variable fromisoformat : string -> option datetime.
Variable isoformat_error : string -> string.
Variable lookup_error : nat -> bool.
Variables temps hums : list (option float).

#[local] Abbreviation entries3 :=
  (entries fromisoformat isoformat_error lookup_error temps hums).
#[local] Abbreviation bad := (out_of_range temps hums).
#[local] Abbreviation asks := (looked_up temps hums).
#[local] Abbreviation answered :=
  (fun j : nat => looked_up temps hums j -> lookup_error j = false).
#[local] Abbreviation refused :=
  (fun j : nat => looked_up temps hums j /\ lookup_error j = true).
#[local] Abbreviation passed :=
  (fun j : nat => ~ out_of_range temps hums j
                  /\ (looked_up temps hums j -> lookup_error j = false)).

Lemma out_of_range_skip (i : nat) :
  nth_error temps i = Some None -> ~ bad i.
Proof. intros H [H'|(t & H' & _)]; congruence. Qed.

Lemma out_of_range_both (i : nat) (t : float) (h : option float) :
  nth_error temps i = Some (Some t) -> nth_error hums i = Some h ->
  ~ bad i.
Proof. intros H1 H2 [H'|(t' & _ & H')]; congruence. Qed.

Lemma looked_up_both (i : nat) (t h : float) :
  nth_error temps i = Some (Some t) -> nth_error hums i = Some (Some h) ->
  asks i.
Proof. intros H1 H2. exists t, h. auto. Qed.

Lemma not_looked_up_temp (i : nat) :
  nth_error temps i = Some None \/ nth_error temps i = None -> ~ asks i.
Proof. intros [H|H] (t & h & H1 & _); congruence. Qed.

Lemma not_looked_up_hum (i : nat) :
  nth_error hums i = Some None \/ nth_error hums i = None -> ~ asks i.
Proof. intros [H|H] (t & h & _ & H2); congruence. Qed.

(** Where the walk ends in [IndexError]. *)
Lemma entries_index_error_inv (tss : list string) :
  forall i,
    entries3 i tss = Raise IndexError ->
    exists k, (k < List.length tss)%nat /\ bad (i + k)
              /\ forall k', (k' < k)%nat -> answered (i + k')%nat.
Proof.
  induction tss as [|s tss IH]; intros i; simpl; [discriminate|].
  destruct (fromisoformat _) as [ts|]; [|discriminate].
  destruct (nth_error temps i) as [[t|]|] eqn:Ht.
  - destruct (nth_error hums i) as [[h|]|] eqn:Hh.
    + destruct (lookup_error i) eqn:Hl; [discriminate|].
      destruct (entries3 (S i) tss) as [es|e] eqn:He; [discriminate|].
      intros [= ->].
      apply (first_shift bad answered);
        [eapply out_of_range_both; eauto | intros _; exact Hl | apply IH, He].
    + intros H.
      apply (first_shift bad answered);
        [eapply out_of_range_both; eauto | | apply IH, H].
      intros Hask. exfalso. revert Hask. apply not_looked_up_hum. auto.
    + intros _. exists 0%nat. split; [lia|]. rewrite Nat.add_0_r.
      split; [right; eauto|]. intros k' Hk'. lia.
  - intros H.
    apply (first_shift bad answered);
      [apply out_of_range_skip, Ht | | apply IH, H].
    intros Hask. exfalso. revert Hask. apply not_looked_up_temp. auto.
  - intros _. exists 0%nat. split; [lia|]. rewrite Nat.add_0_r.
    split; [left; exact Ht|]. intros k' Hk'. lia.
Qed.

Lemma entries_index_error (tss : list string) :
  Forall (fun s => fromisoformat (replace "T" " " s) <> None) tss ->
  forall i,
    (exists k, (k < List.length tss)%nat /\ bad (i + k)
               /\ forall k', (k' < k)%nat -> answered (i + k')%nat) ->
    entries3 i tss = Raise IndexError.
Proof.
  induction 1 as [|s tss Hs Htss IH]; intros i; simpl.
  - intros (k & Hk & _). lia.
  - destruct (fromisoformat _) as [ts|]; [|congruence].
    destruct (nth_error temps i) as [[t|]|] eqn:Ht; [| |reflexivity].
    + destruct (nth_error hums i) as [[h|]|] eqn:Hh; [| |reflexivity].
      * destruct (lookup_error i) eqn:Hl.
        -- intros Hex. exfalso. revert Hex.
           apply (first_blocked bad answered);
             [eapply out_of_range_both; eauto|].
           intros Hans. rewrite Hans in Hl; [discriminate|].
           eapply looked_up_both; eauto.
        -- intros Hex.
           apply (first_shift bad answered) in Hex;
             [|eapply out_of_range_both; eauto | intros _; exact Hl].
           rewrite (IH _ Hex). reflexivity.
      * intros Hex.
        apply (first_shift bad answered) in Hex;
          [|eapply out_of_range_both; eauto |].
        -- apply IH, Hex.
        -- intros Hask. exfalso. revert Hask. apply not_looked_up_hum. auto.
    + intros Hex.
      apply (first_shift bad answered) in Hex;
        [|apply out_of_range_skip, Ht |].
      * apply IH, Hex.
      * intros Hask. exfalso. revert Hask. apply not_looked_up_temp. auto.
Qed.

(** Where the walk ends in the exception of a lookup. *)
Lemma entries_lookup_error_inv (tss : list string) :
  forall i,
    entries3 i tss = Raise SQLAlchemyError ->
    exists k, (k < List.length tss)%nat /\ refused (i + k)%nat
              /\ forall k', (k' < k)%nat -> passed (i + k')%nat.
Proof.
  induction tss as [|s tss IH]; intros i; simpl; [discriminate|].
  destruct (fromisoformat _) as [ts|]; [|discriminate].
  destruct (nth_error temps i) as [[t|]|] eqn:Ht; [| |discriminate].
  - destruct (nth_error hums i) as [[h|]|] eqn:Hh; [| |discriminate].
    + destruct (lookup_error i) eqn:Hl.
      * intros _. exists 0%nat. split; [lia|]. rewrite Nat.add_0_r.
        split; [split; [eapply looked_up_both; eauto|exact Hl]|].
        intros k' Hk'. lia.
      * destruct (entries3 (S i) tss) as [es|e] eqn:He; [discriminate|].
        intros [= ->].
        apply (first_shift refused passed); [| |apply IH, He].
        -- intros [_ Hl']. congruence.
        -- split; [eapply out_of_range_both; eauto|intros _; exact Hl].
    + intros H.
      apply (first_shift refused passed); [| |apply IH, H].
      * intros [Hask _]. revert Hask. apply not_looked_up_hum. auto.
      * split; [eapply out_of_range_both; eauto|].
        intros Hask. exfalso. revert Hask. apply not_looked_up_hum. auto.
  - intros H.
    apply (first_shift refused passed); [| |apply IH, H].
    + intros [Hask _]. revert Hask. apply not_looked_up_temp. auto.
    + split; [apply out_of_range_skip, Ht|].
      intros Hask. exfalso. revert Hask. apply not_looked_up_temp. auto.
Qed.

Lemma entries_lookup_error (tss : list string) :
  Forall (fun s => fromisoformat (replace "T" " " s) <> None) tss ->
  forall i,
    (exists k, (k < List.length tss)%nat /\ refused (i + k)%nat
               /\ forall k', (k' < k)%nat -> passed (i + k')%nat) ->
    entries3 i tss = Raise SQLAlchemyError.
Proof.
  induction 1 as [|s tss Hs Htss IH]; intros i; simpl.
  - intros (k & Hk & _). lia.
  - destruct (fromisoformat _) as [ts|]; [|congruence].
    destruct (nth_error temps i) as [[t|]|] eqn:Ht.
    + destruct (nth_error hums i) as [[h|]|] eqn:Hh.
      * destruct (lookup_error i) eqn:Hl; [reflexivity|].
        intros Hex.
        apply (first_shift refused passed) in Hex.
        -- rewrite (IH _ Hex). reflexivity.
        -- intros [_ Hl']. congruence.
        -- split; [eapply out_of_range_both; eauto|intros _; exact Hl].
      * intros Hex.
        apply (first_shift refused passed) in Hex.
        -- apply IH, Hex.
        -- intros [Hask _]. revert Hask. apply not_looked_up_hum. auto.
        -- split; [eapply out_of_range_both; eauto|].
           intros Hask. exfalso. revert Hask. apply not_looked_up_hum. auto.
      * intros Hex. exfalso. revert Hex.
        apply (first_blocked refused passed).
        -- intros [Hask _]. revert Hask. apply not_looked_up_hum. auto.
        -- intros [Hbad _]. apply Hbad. right. eauto.
    + intros Hex.
      apply (first_shift refused passed) in Hex.
      * apply IH, Hex.
      * intros [Hask _]. revert Hask. apply not_looked_up_temp. auto.
      * split; [apply out_of_range_skip, Ht|].
        intros Hask. exfalso. revert Hask. apply not_looked_up_temp. auto.
    + intros Hex. exfalso. revert Hex.
      apply (first_blocked refused passed).
      * intros [Hask _]. revert Hask. apply not_looked_up_temp. auto.
      * intros [Hbad _]. apply Hbad. left. exact Ht.
Qed.

(** The exceptions of the walk. *)
Lemma entries_raise_kind (tss : list string) :
  forall i e,
    entries3 i tss = Raise e ->
    e = IndexError \/ e = SQLAlchemyError \/ exists msg, e = ValueError msg.
Proof.
  induction tss as [|s tss IH]; intros i e; simpl; [discriminate|].
  destruct (fromisoformat _) as [ts|]; [|intros [= <-]; eauto].
  destruct (nth_error temps i) as [[t|]|]; [| |intros [= <-]; auto];
    [|apply IH].
  destruct (nth_error hums i) as [[h|]|]; [| |intros [= <-]; auto];
    [|apply IH].
  destruct (lookup_error i); [intros [= <-]; auto|].
  destruct (entries3 (S i) tss) as [es|e'] eqn:He; [discriminate|].
  intros [= <-]. apply (IH _ _ He).
Qed.

End IndexFacts.

Lemma not_storage_error (e : exn) :
  e = IndexError \/ e = SQLAlchemyError \/ (exists msg, e = ValueError msg) ->
  ~ storage_error e.
Proof. intros [-> | [-> | (m & ->)]] (msg & H); discriminate. Qed.

(** A call ends in an exception of the walk exactly when the walk does. *)
Lemma process_walk_error (fromisoformat : string -> option datetime)
    (isoformat_error : string -> string) (lookup_error : nat -> bool)
    (commit_error : option string) (utcnow : Z -> datetime) (api_hourly : hourly)
    (lat lon : float) (db : db_state) (e : exn) :
  ~ storage_error e ->
  snd (WeatherService.process_and_store_weather_data
         fromisoformat isoformat_error lookup_error commit_error utcnow
         api_hourly lat lon db)
  = Raise e <->
  entries fromisoformat isoformat_error lookup_error
          (temperatures api_hourly) (humidities api_hourly)
          0%nat (timestamps api_hourly) = Raise e.
Proof.
  intros Hns.
  destruct (entries fromisoformat isoformat_error lookup_error
              (temperatures api_hourly) (humidities api_hourly)
              0%nat (timestamps api_hourly))
    as [es|e'] eqn:He.
  - destruct commit_error as [msg|].
    + rewrite (process_commit_fails _ _ _ msg utcnow _ lat lon db es He). simpl.
      split; [|discriminate].
      intros [= <-]. exfalso. apply Hns. exists msg. reflexivity.
    + rewrite (process_entries _ _ _ utcnow _ lat lon db es He). simpl.
      split; discriminate.
  - rewrite (process_raises _ _ _ commit_error utcnow _ lat lon db e' He). simpl.
    split; intros H; injection H as ->; reflexivity.
Qed.

(** C10 as amended.  The walk reads [temperatures[i]] at every index of the
    time array and [humidities[i]] only where the temperature is not null.
    When both arrays are at least as long as the time array the call never
    ends in [IndexError]; and when every timestamp parses, it ends in
    [IndexError] (not in the storage exception) exactly when some index of
    the time array is out of range in that sense and the database has
    answered every lookup made before that index: a lookup that raises
    first ends the call with the exception of the database instead. *)
Theorem C10_index_error
    (fromisoformat : string -> option datetime)
    (isoformat_error : string -> string) (lookup_error : nat -> bool)
    (commit_error : option string) (utcnow : Z -> datetime)
    (api_hourly : hourly) (lat lon : float) (db : db_state) :
  let out := snd (WeatherService.process_and_store_weather_data
                    fromisoformat isoformat_error lookup_error commit_error
                    utcnow api_hourly lat lon db) in
  ((List.length (timestamps api_hourly)
      <= List.length (temperatures api_hourly))%nat ->
   (List.length (timestamps api_hourly)
      <= List.length (humidities api_hourly))%nat ->
   out <> Raise IndexError)
  /\
  (Forall (fun s => fromisoformat (replace "T" " " s) <> None)
          (timestamps api_hourly) ->
   (out = Raise IndexError <->
    exists i, (i < List.length (timestamps api_hourly))%nat
              /\ out_of_range (temperatures api_hourly)
                              (humidities api_hourly) i
              /\ forall k, (k < i)%nat ->
                   looked_up (temperatures api_hourly)
                             (humidities api_hourly) k ->
                   lookup_error k = false)).
Proof.
  assert (Hns : ~ storage_error IndexError)
    by (apply not_storage_error; auto).
  simpl. split.
  - intros Ht Hh Hout. apply (process_walk_error _ _ _ _ _ _ _ _ _ _ Hns) in Hout.
    apply entries_index_error_inv in Hout.
    destruct Hout as (k & Hk & [Hbad|(t & _ & Hbad)] & _);
      apply nth_error_None in Hbad; simpl in Hbad; lia.
  - intros Hparse. rewrite (process_walk_error _ _ _ _ _ _ _ _ _ _ Hns). split.
    + intros H. apply entries_index_error_inv in H. exact H.
    + intros H. apply entries_index_error; assumption.
Qed.

(** ** Failures and the transaction *)


(** ** The archive client *)

Lemma py_in_total (f f' : string) (v : json) (b : bool) :
  py_in f v = Return b -> exists b', py_in f' v = Return b'.
Proof.
  destruct v; simpl; try discriminate; intros _; eauto.
Qed.

Lemma check_fields_ok (fields : list string) (hourly_data : json) :
  check_fields fields hourly_data = Return tt ->
  Forall (fun f => py_in f hourly_data = Return true) fields.
Proof.
  induction fields as [|f fields IH]; simpl; [constructor|].
  destruct (py_in f hourly_data) as [[|]|] eqn:Hf; try discriminate.
  intros H. constructor; auto.
Qed.

Lemma check_fields_missing (fields : list string) (hourly_data : json)
    (f : string) :
  In f fields -> py_in f hourly_data = Return false ->
  exists msg, check_fields fields hourly_data = Raise (ValueError msg).
Proof.
  intros Hin Hf. induction fields as [|f0 fields IH]; simpl; [contradiction|].
  destruct (py_in_total f f0 hourly_data false Hf) as ([|] & Hf0);
    rewrite Hf0; [|eauto].
  destruct Hin as [->|Hin]; [congruence|]. apply IH, Hin.
Qed.



(** The check is Python's [in]: an [hourly] member that is the list of the
    three names passes it as well. *)
Example fetch_returns_names_only :
  ArchiveClient.fetch_weather_data
    (Examples.archive_answers Examples.names_only_body)
    19724 Examples.lat47 Examples.lon8 2
  = Return Examples.names_only_body.
Proof. reflexivity. Qed.


(** ** Request validation *)

Section Validation.

Import Routes.

Lemma select_rejected_status (now : datetime) (args : query_args)
    (db : db_state) (r : response) :
  select_weather_data now args db = Rejected r -> fst r = 400.
Proof.
  unfold select_weather_data.
  destruct ((_ <=? 0) || (168 <? _)); [intros [= <-]; reflexivity|].
  destruct (arg_lat args) as [lat|], (arg_lon args) as [lon|];
    try discriminate.
  destruct (negb (lat_in_range lat) || negb (lon_in_range lon));
    [intros [= <-]; reflexivity|discriminate].
Qed.

(** What the validation block refuses. *)
Lemma select_rejected_iff (now : datetime) (args : query_args) (db : db_state) :
  let hours := match arg_hours args with Some h => h | None => 48 end in
  (exists r, select_weather_data now args db = Rejected r) <->
  (hours < 1 \/ 168 < hours
   \/ exists lat lon,
        arg_lat args = Some lat /\ arg_lon args = Some lon
        /\ (lat_in_range lat = false \/ lon_in_range lon = false)).
Proof.
  cbv zeta. unfold select_weather_data.
  set (hours := match arg_hours args with Some h => h | None => 48 end).
  destruct (Z.leb_spec hours 0) as [H0|H0]; simpl.
  { split; [intros _; left; lia|eauto]. }
  destruct (Z.ltb_spec 168 hours) as [H1|H1]; simpl.
  { split; [intros _; right; left; lia|eauto]. }
  destruct (arg_lat args) as [lat|], (arg_lon args) as [lon|].
  - destruct (lat_in_range lat) eqn:Hlat, (lon_in_range lon) eqn:Hlon; simpl.
    + split; [intros (r & Hr); discriminate|].
      intros [H|[H|(lat' & lon' & [= <-] & [= <-] & [H|H])]];
        try lia; congruence.
    + split; [|eauto]. intros _. right. right. exists lat, lon. auto.
    + split; [|eauto]. intros _. right. right. exists lat, lon. auto.
    + split; [|eauto]. intros _. right. right. exists lat, lon. auto.
  - split; [intros (r & Hr); discriminate|].
    intros [H|[H|(lat' & lon' & _ & Hl & _)]]; try lia; discriminate.
  - split; [intros (r & Hr); discriminate|].
    intros [H|[H|(lat' & lon' & Hl & _ & _)]]; try lia; discriminate.
  - split; [intros (r & Hr); discriminate|].
    intros [H|[H|(lat' & lon' & Hl & _ & _)]]; try lia; discriminate.
Qed.

Lemma get_weather_data_400 (now : datetime) (args : query_args) (db : db_state) :
  fst (get_weather_data now args db) = 400 <->
  exists r, select_weather_data now args db = Rejected r.
Proof.
  unfold get_weather_data.
  destruct (select_weather_data now args db) as [r|hours loc wd] eqn:Hsel.
  - split; [eauto|]. intros _. eapply select_rejected_status, Hsel.
  - simpl. split; [discriminate|]. intros (r & Hr); discriminate.
Qed.

Lemma export_excel_400 (workbook_error : option string) (now : datetime)
    (args : query_args) (db : db_state) :
  fst (export_excel workbook_error now args db) = 400 <->
  exists r, select_weather_data now args db = Rejected r.
Proof.
  unfold export_excel.
  destruct (select_weather_data now args db) as [r|hours loc wd] eqn:Hsel.
  - split; [eauto|]. intros _. eapply select_rejected_status, Hsel.
  - split; [|intros (r & Hr); discriminate].
    destruct wd; [discriminate|]. destruct workbook_error; discriminate.
Qed.

End Validation.

(** C8 as amended.  On [/weather-data] and [/export/excel] the answer is 400
    exactly when [hours] (48 when absent) is outside [1, 168], or both
    [lat] and [lon] are given and one of them is outside its range
    ([-90, 90] and [-180, 180]).  So [hours=0] and [hours=169] are always
    refused and [hours=1], [hours=168] pass; [lat=91] and [lon=181] are
    refused whenever the other coordinate is given too.  A coordinate given
    alone is not validated. *)
Theorem C8_parameter_validation
    (workbook_error : option string) (now : datetime)
    (args : Routes.query_args) (db : db_state) :
  let hours := match Routes.arg_hours args with Some h => h | None => 48 end in
  let refused :=
    hours < 1 \/ 168 < hours
    \/ exists lat lon,
         Routes.arg_lat args = Some lat /\ Routes.arg_lon args = Some lon
         /\ (Routes.lat_in_range lat = false \/ Routes.lon_in_range lon = false) in
  (fst (Routes.get_weather_data now args db) = 400 <-> refused)
  /\ (fst (Routes.export_excel workbook_error now args db) = 400 <-> refused)
  /\ (Routes.arg_hours args = Some 0 \/ Routes.arg_hours args = Some 169 ->
      fst (Routes.get_weather_data now args db) = 400
      /\ fst (Routes.export_excel workbook_error now args db) = 400)
  /\ (Routes.arg_hours args = Some 1 \/ Routes.arg_hours args = Some 168 ->
      (forall lat lon,
         Routes.arg_lat args = Some lat -> Routes.arg_lon args = Some lon ->
         Routes.lat_in_range lat = true /\ Routes.lon_in_range lon = true) ->
      fst (Routes.get_weather_data now args db) = 200)
  /\ (Routes.arg_lat args = Some (float_of_Z 91)
      \/ Routes.arg_lon args = Some (float_of_Z 181) ->
      Routes.arg_lat args <> None -> Routes.arg_lon args <> None ->
      fst (Routes.get_weather_data now args db) = 400
      /\ fst (Routes.export_excel workbook_error now args db) = 400)
  /\ Routes.lat_in_range (float_of_Z 90) = true
  /\ Routes.lat_in_range (float_of_Z (-90)) = true
  /\ Routes.lon_in_range (float_of_Z 180) = true
  /\ Routes.lon_in_range (float_of_Z (-180)) = true.
Proof.
  cbv zeta.
  pose proof (select_rejected_iff now args db) as Hsel. cbv zeta in Hsel.
  pose proof (get_weather_data_400 now args db) as Hget.
  pose proof (export_excel_400 workbook_error now args db) as Hxls.
  split; [rewrite Hget; exact Hsel|].
  split; [rewrite Hxls; exact Hsel|].
  split.
  { intros Hh. rewrite Hget, Hxls, Hsel.
    destruct Hh as [-> | ->]; split; ((left; lia) || (right; left; lia)). }
  split.
  { intros Hh Hnone.
    destruct (fst (Routes.get_weather_data now args db) =? 400) eqn:E.
    - apply Z.eqb_eq in E. apply Hget, Hsel in E.
      destruct E as [E|[E|(lat & lon & Hlat & Hlon & E)]].
      + destruct Hh as [Hh|Hh]; rewrite Hh in E; lia.
      + destruct Hh as [Hh|Hh]; rewrite Hh in E; lia.
      + destruct (Hnone lat lon Hlat Hlon) as [H1 H2].
        destruct E as [E|E]; congruence.
    - unfold Routes.get_weather_data in *.
      destruct (Routes.select_weather_data now args db) as [r|? ? ?] eqn:Hs;
        [|reflexivity].
      apply select_rejected_status in Hs. apply Z.eqb_neq in E.
      contradiction. }
  split.
  { intros H91 Hlat Hlon. rewrite Hget, Hxls, Hsel.
    destruct (Routes.arg_lat args) as [lat|] eqn:Elat; [|congruence].
    destruct (Routes.arg_lon args) as [lon|] eqn:Elon; [|congruence].
    assert (Routes.lat_in_range lat = false \/ Routes.lon_in_range lon = false).
    { destruct H91 as [H|H];
        [left; assert (lat = float_of_Z 91) as -> by congruence
        |right; assert (lon = float_of_Z 181) as -> by congruence];
        reflexivity. }
    split; right; right; exists lat, lon; auto. }
  repeat split; reflexivity.
Qed.

(** C8, the claim as stated, fails: a request that carries [lat=91] and no
    [lon] is answered 200 by [/weather-data] and by [/export/excel]. *)
Lemma C8_lat_91_alone_accepted :
  Routes.arg_lat Examples.only_lat_91 = Some (float_of_Z 91)
  /\ fst (Routes.get_weather_data Examples.next_day Examples.only_lat_91
            Examples.db_after) = 200
  /\ fst (Routes.export_excel None Examples.next_day Examples.only_lat_91
            Examples.db_after) = 200.
Proof. repeat split; reflexivity. Qed.

Lemma C8_witness :
  fst (Routes.get_weather_data Examples.next_day
         (Examples.at_zurich (Some 168)) Examples.db_after) = 200
  /\ fst (Routes.get_weather_data Examples.next_day
            (Examples.at_coordinates 91 8) Examples.db_after) = 400.
Proof.
  split.
  - apply (C8_parameter_validation None Examples.next_day
             (Examples.at_zurich (Some 168)) Examples.db_after).
    + right. reflexivity.
    + intros lat lon [= <-] [= <-]. split; reflexivity.
  - apply (C8_parameter_validation None Examples.next_day
             (Examples.at_coordinates 91 8) Examples.db_after).
    + left. reflexivity.
    + discriminate.
    + discriminate.
Defined.

(** ** The PDF export *)

(** C9 as amended.  On a request that passes validation and selects at
    least one row, [/export/pdf] answers 200 or 500.  It answers 500 exactly
    when the chart, the temporary file or the sending of the file raises, or
    when both rendering pipelines fail; the chart and the temporary file
    come before either pipeline, so their failure is answered without the
    fallback being tried.  When only the primary pipeline fails the
    fallback is run and the answer is the PDF. *)
Theorem C9_pdf_fallback
    (e : Routes.pdf_steps) (now : datetime) (args : Routes.query_args)
    (db : db_state) (hours : Z) (loc : option (float * float))
    (r : WeatherData) (rest : list WeatherData) :
  Routes.select_weather_data now args db = Routes.Selected hours loc (r :: rest) ->
  let res := Routes.export_pdf e now args db in
  (fst res = 200 \/ fst res = 500)
  /\ (fst res = 500 <->
      Routes.chart_error e <> None
      \/ Routes.tempfile_error e <> None
      \/ (Routes.primary_fails e = true /\ Routes.fallback_fails e = true)
      \/ Routes.send_file_error e <> None)
  /\ (Routes.chart_error e = None -> Routes.tempfile_error e = None ->
      Routes.send_file_error e = None ->
      Routes.primary_fails e = true -> Routes.fallback_fails e = false ->
      res = (200, Routes.FileBody "application/pdf"))
  /\ (Routes.chart_error e = None -> Routes.tempfile_error e = None ->
      Routes.primary_fails e = true -> Routes.fallback_fails e = true ->
      res = Routes.pdf_failed "Both WeasyPrint and ReportLab fallback failed").
Proof.
  intros Hsel. cbv zeta. unfold Routes.export_pdf. rewrite Hsel.
  unfold Routes.fallback_fails, Routes.send_pdf, Routes.pdf_failed.
  destruct (Routes.chart_error e) as [m1|];
  destruct (Routes.tempfile_error e) as [m2|];
  destruct (Routes.primary_fails e);
  destruct (Routes.reportlab_error e) as [m3|];
  destruct (Routes.send_file_error e) as [m4|]; simpl;
    (split; [auto|]); (split; [|split; congruence]);
    (split; [intros H; try discriminate H|]);
    try (intros _; reflexivity);
    try (left; discriminate);
    try (right; left; discriminate);
    try (right; right; left; split; reflexivity);
    try (right; right; right; discriminate);
    intros [H|[H|[[H1 H2]|H]]]; congruence.
Qed.

(** C9, the claim as stated, fails: when the chart cannot be drawn the
    answer is 500 although neither pipeline has failed. *)
Lemma C9_chart_failure_is_500 :
  (exists loc r rest,
     Routes.select_weather_data Examples.next_day (Examples.at_zurich None)
       Examples.db_after = Routes.Selected 48 loc (r :: rest))
  /\ fst (Routes.export_pdf Examples.chart_breaks Examples.next_day
            (Examples.at_zurich None) Examples.db_after) = 500
  /\ Routes.primary_fails Examples.chart_breaks = false
  /\ Routes.fallback_fails Examples.chart_breaks = false.
Proof.
  split; [|repeat split; reflexivity].
  eexists. eexists. eexists. vm_compute. reflexivity.
Qed.

Lemma C9_witness :
  Routes.export_pdf Examples.no_weasyprint Examples.next_day
    (Examples.at_zurich None) Examples.db_after
  = (200, Routes.FileBody "application/pdf").
Proof.
  eapply (C9_pdf_fallback Examples.no_weasyprint Examples.next_day
            (Examples.at_zurich None) Examples.db_after);
    reflexivity.
Defined.

(** ** The properties on the sample data *)

Lemma C1_witness : db_invariant Examples.db_after.
Proof.
  apply (proj1 (C1_unique_triples_preserved IsoFormat.fromisoformat
                  IsoFormat.error_text Examples.no_error None
                  (Examples.clock_from 6) Examples.next_day
                  Examples.two_hours Examples.lat47 Examples.lon8 48
                  Examples.empty_db (conj eq_refl eq_refl))).
Defined.


(** The same holds for the database itself: when the lookup of the second
    hour raises (here because the first hour carries a NaN, which the flush
    before that lookup cannot write), the call ends in the exception of the
    database layer, not wrapped and before the third hour is indexed, with
    the row of the first hour still in the session. *)
Example lookup_error_leaves_the_call :
  snd (WeatherService.process_and_store_weather_data
         IsoFormat.fromisoformat IsoFormat.error_text (Examples.error_at 1)
         None (Examples.clock_from 6) Examples.nan_series
         Examples.lat47 Examples.lon8 Examples.empty_db)
  = Raise SQLAlchemyError
  /\ ~ storage_error SQLAlchemyError
  /\ out_of_range (temperatures Examples.nan_series)
                  (humidities Examples.nan_series) 2
  /\ List.length
       (session (fst (WeatherService.process_and_store_weather_data
                        IsoFormat.fromisoformat IsoFormat.error_text
                        (Examples.error_at 1) None (Examples.clock_from 6)
                        Examples.nan_series
                        Examples.lat47 Examples.lon8 Examples.empty_db)))
     = 1%nat.
Proof.
  split; [vm_compute; reflexivity|].
  split; [intros (msg & H); discriminate H|].
  split; [left; reflexivity|vm_compute; reflexivity].
Qed.


Lemma C4_witness :
  exists r,
    In r (snd (WeatherService.get_weather_data_by_location
                 Examples.next_day Examples.lat47 Examples.lon8 48
                 Examples.db_after))
    /\ timestamp r = Examples.midnight
    /\ temperature_2m r = stored (float_of_Z 1)
    /\ relative_humidity_2m r = stored (float_of_Z 50)
    /\ same_value (temperature_2m r) (float_of_Z 1)
    /\ same_value (relative_humidity_2m r) (float_of_Z 50)
    /\ (float_of_Z 1 <> S754_zero true -> temperature_2m r = float_of_Z 1)
    /\ (float_of_Z 50 <> S754_zero true
        -> relative_humidity_2m r = float_of_Z 50).
Proof.
  assert (Hrun : WeatherService.process_and_store_weather_data
                   IsoFormat.fromisoformat IsoFormat.error_text
                   Examples.no_error None (Examples.clock_from 6)
                   Examples.two_hours
                   Examples.lat47 Examples.lon8 Examples.empty_db
                 = (Examples.db_after, Return Examples.recs_after))
    by (vm_compute; reflexivity).
  assert (Hnow : is_datetime Examples.next_day)
    by (unfold is_datetime, datetime_min, datetime_max, Examples.next_day,
          Examples.midnight, timedelta_hours; lia).
  assert (Hcut : is_datetime (Examples.next_day - timedelta_hours 48))
    by (unfold is_datetime, datetime_min, datetime_max, Examples.next_day,
          Examples.midnight, timedelta_hours; lia).
  apply (proj2 (C4_round_trip IsoFormat.fromisoformat IsoFormat.error_text
                  Examples.no_error None (Examples.clock_from 6)
                  Examples.two_hours
                  Examples.lat47 Examples.lon8 Examples.empty_db
                  Examples.db_after Examples.recs_after Examples.next_day 48
                  (NoDup_nil Z) Hrun Hnow Hcut)
               0%nat "2024-01-01T00:00"%string).
  - reflexivity.
  - vm_compute. reflexivity.
  - reflexivity.
  - reflexivity.
  - intros [|[|[|j]]] s' Hj Hn; simpl in Hn; try lia; try discriminate Hn.
    injection Hn as <-. vm_compute. discriminate.
  - unfold Examples.next_day, Examples.midnight, timedelta_hours. lia.
Defined.

(** A temperature of [-0.0] is read back as [0.0]. *)
Example negative_zero_read_back :
  map temperature_2m
      (snd (WeatherService.get_weather_data_by_location
              Examples.next_day Examples.lat47 Examples.lon8 48
              (fst (Examples.ingest None Examples.thaw
                      Examples.lat47 Examples.lon8 Examples.empty_db))))
  = [S754_zero false].
Proof. vm_compute. reflexivity. Qed.

Lemma C5_witness :
  exists r1,
    filter (key_matches Examples.midnight Examples.lat47 Examples.lon8)
           (session Examples.db_second) = [r1]
    /\ table Examples.db_second = session Examples.db_second
    /\ id r1 = id Examples.row_midnight
    /\ created_at r1 = created_at Examples.row_midnight
    /\ timestamp r1 = timestamp Examples.row_midnight
    /\ latitude r1 = latitude Examples.row_midnight
    /\ longitude r1 = longitude Examples.row_midnight
    /\ temperature_2m r1 = stored (float_of_Z 5)
    /\ relative_humidity_2m r1 = stored (float_of_Z 50)
    /\ same_value (temperature_2m r1) (float_of_Z 5)
    /\ same_value (relative_humidity_2m r1) (float_of_Z 50).
Proof.
  apply (C5_update_in_place IsoFormat.fromisoformat IsoFormat.error_text
           Examples.no_error None (Examples.clock_from 3600000006)
           Examples.warmer
           Examples.lat47 Examples.lon8 Examples.db_after Examples.db_second
           Examples.recs_second Examples.row_midnight 0%nat
           "2024-01-01T00:00"%string Examples.midnight
           (float_of_Z 5) (float_of_Z 50)).
  - unfold unique_ids. vm_compute.
    repeat constructor; simpl; intuition discriminate.
  - vm_compute. reflexivity.
  - vm_compute. left. reflexivity.
  - vm_compute. reflexivity.
  - reflexivity.
  - vm_compute. reflexivity.
  - reflexivity.
  - reflexivity.
  - intros [|[|j]] s' Hj Hn; simpl in Hn; try lia; discriminate Hn.
  - vm_compute. reflexivity.
Defined.

(** C10, the claim as stated, fails: the time array is longer than the
    humidity array, yet the only temperature is null, so the humidity is
    never read and the call returns. *)
Lemma C10_null_temperature_skips_humidity :
  (List.length (humidities Examples.null_series)
   < List.length (timestamps Examples.null_series))%nat
  /\ Examples.ingest None Examples.null_series
       Examples.lat47 Examples.lon8 Examples.empty_db
     = (Examples.empty_db, Return []).
Proof. split; [simpl; lia|vm_compute; reflexivity]. Qed.

Lemma C10_witness :
  snd (Examples.ingest None Examples.two_hours
         Examples.lat47 Examples.lon8 Examples.empty_db)
  <> Raise IndexError
  /\ snd (Examples.ingest None Examples.short_series
            Examples.lat47 Examples.lon8 Examples.empty_db)
     = Raise IndexError.
Proof.
  split.
  - apply (proj1 (C10_index_error IsoFormat.fromisoformat
                    IsoFormat.error_text Examples.no_error None
                    (Examples.clock_from 6)
                    Examples.two_hours Examples.lat47 Examples.lon8
                    Examples.empty_db)); simpl; lia.
  - apply (proj2 (C10_index_error IsoFormat.fromisoformat
                    IsoFormat.error_text Examples.no_error None
                    (Examples.clock_from 6)
                    Examples.short_series Examples.lat47 Examples.lon8
                    Examples.empty_db)).
    + repeat constructor; discriminate.
    + exists 1%nat. split; [simpl; lia|]. split; [left; reflexivity|].
      intros k _ _. reflexivity.
Defined.

(* ================================================================= *)
(** * Further properties of the service and of the routes *)

(** ** The request that [fetch_weather_data] sends *)

(** X1.  [fetch_weather_data] consults the archive for one request only:
    the given coordinates, the two hourly variables, time zone [auto], and
    a range of dates that ends the day before [today] and spans [days]
    days, both ends included. *)
Theorem X1_fetch_request_window (today : Z) (lat lon : float) (days : Z) :
  exists p : archive_params,
    p_latitude p = lat /\ p_longitude p = lon
    /\ p_hourly p = "temperature_2m,relative_humidity_2m"%string
    /\ p_timezone p = "auto"%string
    /\ p_end_date p = today - 1
    /\ p_end_date p - p_start_date p + 1 = days
    /\ forall requests_get : archive_params -> http_reply,
         ArchiveClient.fetch_weather_data requests_get today lat lon days
         = ArchiveClient.fetch_weather_data
             (fun _ => requests_get p) today lat lon days.
Proof.
  exists (mkParams lat lon "temperature_2m,relative_humidity_2m"
                   (today - 1 - (days - 1)) (today - 1) "auto").
  do 4 (split; [reflexivity|]).
  split; [reflexivity|]. split; [simpl; lia|].
  intros requests_get. reflexivity.
Qed.

(** X2.  What [fetch_weather_data] returns is a JSON object with an
    [hourly] member.  A body that is null, a boolean or a number makes the
    membership test itself fail: the [TypeError] leaves the function as it
    is, wrapped neither as a request failure nor as invalid data. *)
Theorem X2_fetch_returns_objects
    (requests_get : archive_params -> http_reply)
    (today : Z) (lat lon : float) (days : Z) :
  (forall data,
     ArchiveClient.fetch_weather_data requests_get today lat lon days
     = Return data ->
     exists members hourly_data,
       data = JObject members
       /\ dict_get "hourly" members = Some hourly_data)
  /\ (forall data,
        data = JNull \/ (exists b, data = JBool b) \/ (exists x, data = JNumber x) ->
        ArchiveClient.fetch_weather_data (fun _ => Body data) today lat lon days
        = Raise TypeError).
Proof.
  split.
  - intros data. unfold ArchiveClient.fetch_weather_data.
    match goal with |- context [requests_get ?p] =>
      destruct (requests_get p) as [msg|body] end; [discriminate|].
    unfold ArchiveClient.validate_response.
    destruct (py_in "hourly" body) as [[|]|e] eqn:Hin;
      [| discriminate | destruct e; discriminate].
    destruct (py_getitem "hourly" body) as [hourly_data|e] eqn:Hget;
      [| destruct e; discriminate].
    destruct (check_fields required_fields hourly_data) as [[]|e];
      [| destruct e; discriminate].
    intros [= <-].
    destruct body as [| | | | |members]; try discriminate Hget.
    simpl in Hget.
    destruct (dict_get "hourly" members) as [x|] eqn:Hd; [|discriminate].
    injection Hget as ->. eauto.
  - intros data [->|[(b & ->)|(x & ->)]]; reflexivity.
Qed.

Lemma X2_witness :
  exists members hourly_data,
    MoreExamples.aligned_body = JObject members
    /\ dict_get "hourly" members = Some hourly_data.
Proof.
  apply (proj1 (X2_fetch_returns_objects
                  (Examples.archive_answers MoreExamples.aligned_body)
                  19724 Examples.lat47 Examples.lon8 2)).
  vm_compute. reflexivity.
Defined.

(** ** What a reconcile returns *)

Lemma skipn_nth_error (A : Type) (l : list A) :
  forall (i : nat) (x : A),
    nth_error l i = Some x -> skipn i l = x :: skipn (S i) l.
Proof.
  induction l as [|a l IH]; intros [|i] x H; simpl in *; try discriminate.
  - injection H as ->. reflexivity.
  - apply IH, H.
Qed.

Section KeptFacts.

Variable fromisoformat : string -> option datetime.
Variable isoformat_error : string -> string.
Variable lookup_error : nat -> bool.
Variables temps hums : list (option float).

#[local] Abbreviation parse4 :=
  (fun s : string => fromisoformat (replace "T" " " s)).

Lemma entries_kept (tss : list string) :
  Forall (fun s => parse4 s <> None) tss ->
  forall i,
    (i + List.length tss <= List.length temps)%nat ->
    (i + List.length tss <= List.length hums)%nat ->
    (forall j, (i <= j < i + List.length tss)%nat ->
               lookup_error j = false) ->
    exists es,
      entries fromisoformat isoformat_error lookup_error temps hums i tss
      = Return es
      /\ map (fun e => Some (entry_ts e)) es
         = map parse4
               (map fst (filter both_present
                           (combine tss (combine (skipn i temps)
                                                 (skipn i hums))))).
Proof.
  induction 1 as [|s tss Hs Htss IH]; intros i Ht Hh Hl; simpl.
  - exists []. split; reflexivity.
  - simpl in Ht, Hh, Hl.
    destruct (nth_error temps i) as [t|] eqn:Et;
      [|apply nth_error_None in Et; lia].
    destruct (nth_error hums i) as [h|] eqn:Eh;
      [|apply nth_error_None in Eh; lia].
    rewrite (skipn_nth_error _ _ _ _ Et), (skipn_nth_error _ _ _ _ Eh).
    destruct (IH (S i)) as (es & He & Hmap);
      [lia|lia|intros j Hj; apply Hl; lia|].
    destruct (fromisoformat (replace "T" " " s)) as [ts|] eqn:Hp;
      [|congruence].
    cbn [combine filter both_present].
    destruct t as [t|]; [destruct h as [h|]|].
    + rewrite (Hl i) by lia. rewrite He.
      exists ((ts, t, h) :: es). split; [reflexivity|].
      cbn [map fst entry_ts]. rewrite Hmap, Hp. reflexivity.
    + exists es. auto.
    + exists es. auto.
Qed.

End KeptFacts.

Lemma rows_of_timestamps (lat lon : float) (rows : list WeatherData) :
  unique_ids rows ->
  forall (tsl : list datetime) (pks : list Z),
    map (fun ts => first_id lat lon ts rows) tsl = map Some pks ->
    map timestamp (rows_of rows pks) = tsl.
Proof.
  intros Hu. induction tsl as [|ts tsl IH]; intros [|pk pks] H;
    simpl in H; try discriminate; [reflexivity|].
  injection H as Hf Hrest. simpl.
  unfold first_id in Hf.
  destruct (query_first ts lat lon rows) as [ex|] eqn:Hq; [|discriminate].
  simpl in Hf. injection Hf as Hid.
  apply query_first_in in Hq. destruct Hq as [Hex Hk].
  destruct (row_of rows pk) as [r|] eqn:Hr.
  - unfold row_of in Hr. apply find_some in Hr. destruct Hr as [Hr Hrid].
    apply Z.eqb_eq in Hrid.
    assert (r = ex) as ->
      by (apply (unique_ids_eq rows); auto; congruence).
    simpl. f_equal; [|apply IH, Hrest].
    unfold key_matches in Hk.
    apply andb_true_iff in Hk. destruct Hk as [Hk _].
    apply andb_true_iff in Hk. destruct Hk as [Hk _].
    apply Z.eqb_eq, Hk.
  - exfalso. unfold row_of in Hr.
    pose proof (find_none _ _ Hr ex Hex) as Hn. simpl in Hn.
    rewrite Hid, Z.eqb_refl in Hn. discriminate.
Qed.

(** X3.  On a series whose measurement arrays are at least as long as its
    time array and whose timestamps all parse, a reconcile to which the
    database answers every lookup and the commit returns, on a store with
    unique primary keys: one record for each hour that has both a
    temperature and a humidity, in the order of the series, each with the
    timestamp of its hour.  Hours with a null measurement leave no
    record. *)
Theorem X3_reconcile_returns_kept_hours
    (fromisoformat : string -> option datetime)
    (isoformat_error : string -> string) (lookup_error : nat -> bool)
    (utcnow : Z -> datetime)
    (api_hourly : hourly) (lat lon : float) (db : db_state) :
  unique_ids (session db) ->
  (List.length (timestamps api_hourly)
     <= List.length (temperatures api_hourly))%nat ->
  (List.length (timestamps api_hourly)
     <= List.length (humidities api_hourly))%nat ->
  Forall (fun s => fromisoformat (replace "T" " " s) <> None)
         (timestamps api_hourly) ->
  (forall i, (i < List.length (timestamps api_hourly))%nat ->
             lookup_error i = false) ->
  exists db1 recs,
    WeatherService.process_and_store_weather_data
      fromisoformat isoformat_error lookup_error None utcnow
      api_hourly lat lon db = (db1, Return recs)
    /\ map (fun r => Some (timestamp r)) recs
       = map (fun s => fromisoformat (replace "T" " " s))
             (kept_hours api_hourly)
    /\ List.length recs = List.length (kept_hours api_hourly).
Proof.
  intros Hu Ht Hh Hparse Hl.
  destruct (entries_kept fromisoformat isoformat_error lookup_error
              (temperatures api_hourly)
              (humidities api_hourly) (timestamps api_hourly) Hparse 0%nat)
    as (es & He & Hmap);
    [simpl; lia|simpl; lia|intros j Hj; apply Hl; simpl in Hj; lia|].
  simpl in Hmap. fold (kept_hours api_hourly) in Hmap.
  rewrite (process_entries _ _ _ utcnow _ lat lon db es He).
  eexists. eexists. split; [reflexivity|].
  assert (Hts : map timestamp
                    (rows_of (fold_left (upsert lat lon utcnow) es (session db))
                             (touched_ids lat lon utcnow es (session db)))
                = map entry_ts es).
  { apply (rows_of_timestamps lat lon).
    - apply unique_ids_fold, Hu.
    - rewrite map_map. apply touched_ids_final. }
  split.
  - rewrite <- Hmap, <- (map_map timestamp Some), Hts, map_map. reflexivity.
  - rewrite <- (length_map timestamp), Hts.
    rewrite <- (length_map (fun s => fromisoformat (replace "T" " " s))
                  (kept_hours api_hourly)), <- Hmap.
    rewrite !length_map. reflexivity.
Qed.

Lemma X3_witness :
  exists db1 recs,
    Examples.ingest None MoreExamples.gap_series
      Examples.lat47 Examples.lon8 Examples.empty_db = (db1, Return recs)
    /\ map (fun r => Some (timestamp r)) recs
       = map (fun s => IsoFormat.fromisoformat (replace "T" " " s))
             (kept_hours MoreExamples.gap_series)
    /\ List.length recs = List.length (kept_hours MoreExamples.gap_series).
Proof.
  apply (X3_reconcile_returns_kept_hours IsoFormat.fromisoformat
           IsoFormat.error_text Examples.no_error (Examples.clock_from 6)
           MoreExamples.gap_series Examples.lat47 Examples.lon8
           Examples.empty_db).
  - constructor.
  - simpl. lia.
  - simpl. lia.
  - repeat constructor; vm_compute; discriminate.
  - intros i _. reflexivity.
Defined.

(** ** What a reconcile leaves alone *)

Lemma process_session (fromisoformat : string -> option datetime)
    (isoformat_error : string -> string) (lookup_error : nat -> bool)
    (utcnow : Z -> datetime) (api_hourly : hourly) (lat lon : float)
    (db : db_state) :
  session (fst (WeatherService.process_and_store_weather_data
                  fromisoformat isoformat_error lookup_error None utcnow
                  api_hourly lat lon db))
  = fold_left (upsert lat lon utcnow)
              (processed fromisoformat lookup_error (temperatures api_hourly)
                 (humidities api_hourly) 0%nat (timestamps api_hourly))
              (session db).
Proof.
  unfold WeatherService.process_and_store_weather_data.
  pose proof (walk_processed fromisoformat isoformat_error lookup_error
                (temperatures api_hourly)
                (humidities api_hourly) lat lon utcnow (timestamps api_hourly)
                0%nat (session db) []) as Hp.
  destruct (WeatherService.walk _ _ _ _ _ _ _ _ _ _ _ _)
    as [rows [touched|e]];
    simpl in *; exact Hp.
Qed.

Lemma processed_length (fromisoformat : string -> option datetime)
    (lookup_error : nat -> bool)
    (temps hums : list (option float)) (tss : list string) :
  forall i,
    (List.length (processed fromisoformat lookup_error temps hums i tss)
       <= List.length tss)%nat.
Proof.
  induction tss as [|s tss IH]; intros i; simpl; [lia|].
  destruct (fromisoformat _); [|simpl; lia].
  destruct (nth_error temps i) as [[t|]|]; [| |simpl; lia];
    [|specialize (IH (S i)); lia].
  destruct (nth_error hums i) as [[h|]|]; [| |simpl; lia];
    [|specialize (IH (S i)); lia].
  destruct (lookup_error i); [simpl; lia|].
  specialize (IH (S i)); simpl; lia.
Qed.

Lemma processed_sources (fromisoformat : string -> option datetime)
    (lookup_error : nat -> bool)
    (temps hums : list (option float)) (tss : list string) :
  forall i e,
    In e (processed fromisoformat lookup_error temps hums i tss) ->
    exists s, In s tss
              /\ fromisoformat (replace "T" " " s) = Some (entry_ts e).
Proof.
  induction tss as [|s tss IH]; intros i e; simpl; [contradiction|].
  destruct (fromisoformat (replace "T" " " s)) as [ts|] eqn:Hp;
    [|contradiction].
  assert (Hrec : In e (processed fromisoformat lookup_error temps hums
                         (S i) tss) ->
                 exists s0, (s = s0 \/ In s0 tss)
                   /\ fromisoformat (replace "T" " " s0) = Some (entry_ts e)).
  { intros H. destruct (IH _ _ H) as (s0 & H0 & H1). eauto. }
  destruct (nth_error temps i) as [[t|]|]; [| |contradiction]; [|exact Hrec].
  destruct (nth_error hums i) as [[h|]|]; [| |contradiction]; [|exact Hrec].
  destruct (lookup_error i); [contradiction|].
  intros [<-|H]; [|apply Hrec, H].
  exists s. split; [left; reflexivity|exact Hp].
Qed.

Section FrameFacts.

Variables lat lon : float.
Variable utcnow : Z -> datetime.

Lemma identity_of_update (pk : Z) (t h : float) (rows : list WeatherData) :
  map identity_of (update_row pk t h rows) = map identity_of rows.
Proof.
  unfold update_row. rewrite map_map. apply map_ext.
  intros r. destruct (id r =? pk); reflexivity.
Qed.

Lemma identity_of_ids (l l' : list WeatherData) :
  map identity_of l = map identity_of l' -> map id l = map id l'.
Proof.
  intros H.
  assert (E : forall l0, map id l0
                         = map (fun x => fst (fst (fst (fst x))))
                               (map identity_of l0))
    by (intros l0; rewrite map_map; reflexivity).
  rewrite (E l), (E l'), H. reflexivity.
Qed.

Lemma fold_append_only (es : list entry) :
  forall rows,
    exists kept created,
      fold_left (upsert lat lon utcnow) es rows = kept ++ created
      /\ map identity_of kept = map identity_of rows
      /\ (List.length created <= List.length es)%nat
      /\ forall r, In r created ->
           column_eq (latitude r) lat = true
           /\ column_eq (longitude r) lon = true
           /\ In (timestamp r) (map entry_ts es)
           /\ forall r0, In r0 rows -> id r0 < id r.
Proof.
  induction es as [|[[ts t] h] es IH]; intros rows.
  - exists rows, []. simpl. rewrite app_nil_r.
    repeat split; try contradiction. lia.
  - cbn [fold_left]. unfold upsert at 2.
    destruct (query_first ts lat lon rows) as [ex|].
    + destruct (IH (update_row (id ex) t h rows))
        as (kept & created & Hfold & Hid & Hlen & Hnew).
      exists kept, created. rewrite identity_of_update in Hid.
      split; [exact Hfold|]. split; [exact Hid|]. split; [simpl; lia|].
      intros r Hr. destruct (Hnew r Hr) as (H1 & H2 & H3 & H4).
      split; [exact H1|]. split; [exact H2|].
      split; [right; exact H3|].
      intros r0 Hr0.
      assert (Hin : In (id r0) (map id (update_row (id ex) t h rows))).
      { rewrite (identity_of_ids _ rows) by apply identity_of_update.
        apply in_map, Hr0. }
      apply in_map_iff in Hin. destruct Hin as (r0' & <- & Hr0').
      apply H4, Hr0'.
    + destruct (IH (add_row ts lat lon t h utcnow rows))
        as (kept & created & Hfold & Hid & Hlen & Hnew).
      unfold add_row in Hid. rewrite map_app in Hid.
      apply map_eq_app in Hid.
      destruct Hid as (k1 & k2 & -> & Hk1 & Hk2).
      destruct k2 as [|n' [|? ?]]; try discriminate Hk2.
      simpl in Hk2. injection Hk2 as Hn1 Hn2 Hn3 Hn4 Hn5.
      exists k1, (n' :: created). rewrite <- app_assoc in Hfold.
      split; [exact Hfold|]. split; [exact Hk1|]. split; [simpl; lia|].
      intros r [<-|Hr].
      * rewrite Hn3, Hn4, Hn2, !column_eq_stored_l, !column_eq_refl.
        split; [reflexivity|]. split; [reflexivity|].
        split; [left; reflexivity|].
        intros r0 Hr0. rewrite Hn1. apply next_id_fresh, Hr0.
      * destruct (Hnew r Hr) as (H1 & H2 & H3 & H4).
        split; [exact H1|]. split; [exact H2|].
        split; [right; exact H3|].
        intros r0 Hr0. apply H4. unfold add_row.
        apply in_or_app. left. exact Hr0.
Qed.

Lemma nth_error_upsert_other (rows : list WeatherData) (e : entry)
    (k : nat) (r : WeatherData) :
  unique_ids rows ->
  nth_error rows k = Some r ->
  key_matches (entry_ts e) lat lon r = false ->
  nth_error (upsert lat lon utcnow rows e) k = Some r.
Proof.
  destruct e as [[ts t] h]. unfold entry_ts, upsert. simpl.
  intros Hu Hk Hkey.
  destruct (query_first ts lat lon rows) as [ex|] eqn:Hq.
  - unfold update_row. rewrite nth_error_map, Hk. simpl.
    destruct (id r =? id ex) eqn:Hid; [|reflexivity].
    exfalso. apply Z.eqb_eq in Hid.
    apply query_first_in in Hq. destruct Hq as [Hex Hkex].
    assert (r = ex) as ->.
    { apply (unique_ids_eq rows); auto. eapply nth_error_In, Hk. }
    congruence.
  - unfold add_row. rewrite nth_error_app1; [exact Hk|].
    apply nth_error_Some. congruence.
Qed.

Lemma nth_error_fold_other (es : list entry) (k : nat) (r : WeatherData) :
  forall rows,
    unique_ids rows ->
    nth_error rows k = Some r ->
    Forall (fun e => key_matches (entry_ts e) lat lon r = false) es ->
    nth_error (fold_left (upsert lat lon utcnow) es rows) k = Some r.
Proof.
  induction es as [|e es IH]; intros rows Hu Hk Hf; simpl; [exact Hk|].
  inversion Hf as [|? ? He Hes]; subst.
  apply IH; [apply unique_ids_upsert, Hu| |exact Hes].
  apply nth_error_upsert_other; assumption.
Qed.

End FrameFacts.




(** ** The two queries side by side *)

Lemma filter_length_le (A : Type) (p q : A -> bool) (l : list A) :
  (forall x, p x = true -> q x = true) ->
  (List.length (filter p l) <= List.length (filter q l))%nat.
Proof.
  intros Hpq. induction l as [|a l IH]; simpl; [lia|].
  destruct (p a) eqn:Hp.
  - rewrite (Hpq a Hp). simpl. lia.
  - destruct (q a); simpl; lia.
Qed.

Lemma order_by_timestamp_length (l : list WeatherData) :
  List.length (order_by_timestamp l) = List.length l.
Proof. symmetry. apply Permutation_length, order_by_timestamp_perm. Qed.



(** ** What the query and export endpoints answer *)

Lemma export_pdf_400 (e : Routes.pdf_steps) (now : datetime)
    (args : Routes.query_args) (db : db_state) :
  fst (Routes.export_pdf e now args db) = 400 <->
  exists r, Routes.select_weather_data now args db = Routes.Rejected r.
Proof.
  unfold Routes.export_pdf.
  destruct (Routes.select_weather_data now args db) as [r|hours loc wd] eqn:Hsel.
  - split; [eauto|]. intros _. eapply select_rejected_status, Hsel.
  - split; [|intros (r & Hr); discriminate].
    destruct wd; [discriminate|].
    unfold Routes.send_pdf, Routes.pdf_failed.
    destruct (Routes.chart_error e); [discriminate|].
    destruct (Routes.tempfile_error e); [discriminate|].
    destruct (Routes.primary_fails e), (Routes.reportlab_error e),
      (Routes.send_file_error e); discriminate.
Qed.

Lemma select_selected (now : datetime) (args : Routes.query_args)
    (db : db_state) (hours : Z) (loc : option (float * float))
    (wd : list WeatherData) :
  Routes.select_weather_data now args db = Routes.Selected hours loc wd ->
  1 <= hours <= 168
  /\ (loc = None <-> Routes.arg_lat args = None \/ Routes.arg_lon args = None)
  /\ (loc = None ->
      wd = snd (WeatherService.get_recent_weather_data now hours db))
  /\ (forall lat lon, loc = Some (lat, lon) ->
        Routes.arg_lat args = Some lat /\ Routes.arg_lon args = Some lon
        /\ Routes.lat_in_range lat = true /\ Routes.lon_in_range lon = true
        /\ wd = snd (WeatherService.get_weather_data_by_location
                       now lat lon hours db)).
Proof.
  unfold Routes.select_weather_data.
  set (h := match Routes.arg_hours args with Some h => h | None => 48 end).
  destruct (Z.leb_spec h 0) as [H0|H0]; simpl; [discriminate|].
  destruct (Z.ltb_spec 168 h) as [H1|H1]; simpl; [discriminate|].
  destruct (Routes.arg_lat args) as [lat|], (Routes.arg_lon args) as [lon|].
  - destruct (Routes.lat_in_range lat) eqn:Hlat,
             (Routes.lon_in_range lon) eqn:Hlon; simpl; try discriminate.
    intros [= <- <- <-]. split; [lia|]. split; [|split].
    + split; [discriminate|]. intros [H|H]; discriminate.
    + discriminate.
    + intros lat' lon' [= <- <-]. auto.
  - intros [= <- <- <-]. split; [lia|]. split; [|split]; auto.
    + split; auto.
    + intros ? ? H. discriminate H.
  - intros [= <- <- <-]. split; [lia|]. split; [|split]; auto.
    + split; auto.
    + intros ? ? H. discriminate H.
  - intros [= <- <- <-]. split; [lia|]. split; [|split]; auto.
    + split; auto.
    + intros ? ? H. discriminate H.
Qed.

(** X7.  When [/weather-data] answers 200, the hours it reports lie in
    [1, 168] and its data is sorted by timestamp, holds only rows of the
    store that are at most one week (168 hours) older than the clock and,
    when a location filter is reported, only rows at that location, whose
    coordinates passed the range check.  A location filter is reported
    exactly when both coordinates were given. *)
Theorem X7_weather_data_answer (now : datetime) (args : Routes.query_args)
    (db : db_state) :
  fst (Routes.get_weather_data now args db) = 200 ->
  exists hours loc data,
    Routes.get_weather_data now args db = (200, Routes.DataBody hours loc data)
    /\ 1 <= hours <= 168
    /\ StronglySorted by_timestamp data
    /\ (forall r, In r data ->
          In r (session db)
          /\ now - 168 * 3600000000 <= timestamp r
          /\ now - hours * 3600000000 <= timestamp r)
    /\ (loc = None <-> Routes.arg_lat args = None \/ Routes.arg_lon args = None)
    /\ (forall lat lon, loc = Some (lat, lon) ->
          Routes.lat_in_range lat = true /\ Routes.lon_in_range lon = true
          /\ forall r, In r data ->
               column_eq (latitude r) lat = true
               /\ column_eq (longitude r) lon = true).
Proof.
  unfold Routes.get_weather_data.
  destruct (Routes.select_weather_data now args db) as [r|hours loc wd] eqn:Hsel.
  - intros H. apply select_rejected_status in Hsel. rewrite Hsel in H.
    discriminate.
  - intros _. exists hours, loc, wd. split; [reflexivity|].
    apply select_selected in Hsel.
    destruct Hsel as (Hh & Hloc & Hnone & Hsome).
    split; [exact Hh|].
    destruct loc as [[lat lon]|].
    + destruct (Hsome lat lon eq_refl) as (_ & _ & Hlat & Hlon & ->).
      simpl. split; [apply order_by_timestamp_sorted|].
      split; [|split; [exact Hloc|]].
      * intros r. rewrite order_by_timestamp_in, filter_In.
        rewrite !andb_true_iff, Z.leb_le. unfold timedelta_hours.
        intros (Hr & _ & Hc). repeat split; [exact Hr|lia|lia].
      * intros lat' lon' [= <- <-]. split; [exact Hlat|].
        split; [exact Hlon|].
        intros r. rewrite order_by_timestamp_in, filter_In.
        rewrite !andb_true_iff. tauto.
    + rewrite (Hnone eq_refl). simpl.
      split; [apply order_by_timestamp_sorted|].
      split; [|split; [exact Hloc|]].
      * intros r. rewrite order_by_timestamp_in, filter_In, Z.leb_le.
        unfold timedelta_hours.
        intros (Hr & Hc). repeat split; [exact Hr|lia|lia].
      * intros ? ? H. discriminate H.
Qed.

Lemma X7_witness :
  exists hours loc data,
    Routes.get_weather_data Examples.next_day (Examples.at_zurich None)
      Examples.db_after = (200, Routes.DataBody hours loc data)
    /\ 1 <= hours <= 168
    /\ StronglySorted by_timestamp data
    /\ (forall r, In r data ->
          In r (session Examples.db_after)
          /\ Examples.next_day - 168 * 3600000000 <= timestamp r
          /\ Examples.next_day - hours * 3600000000 <= timestamp r)
    /\ (loc = None <->
        Routes.arg_lat (Examples.at_zurich None) = None
        \/ Routes.arg_lon (Examples.at_zurich None) = None)
    /\ (forall lat lon, loc = Some (lat, lon) ->
          Routes.lat_in_range lat = true /\ Routes.lon_in_range lon = true
          /\ forall r, In r data ->
               column_eq (latitude r) lat = true
               /\ column_eq (longitude r) lon = true).
Proof.
  apply (X7_weather_data_answer Examples.next_day (Examples.at_zurich None)
           Examples.db_after).
  vm_compute. reflexivity.
Defined.

Section ExportFacts.

Variables (e : Routes.pdf_steps) (workbook_error : option string).
Variables (now : datetime) (args : Routes.query_args) (db : db_state).

Lemma exports_rejected (r : Routes.response) :
  Routes.select_weather_data now args db = Routes.Rejected r ->
  Routes.export_pdf e now args db = r
  /\ Routes.export_excel workbook_error now args db = r
  /\ Routes.get_weather_data now args db = r
  /\ fst r = 400.
Proof.
  intros Hsel.
  unfold Routes.export_pdf, Routes.export_excel, Routes.get_weather_data.
  rewrite Hsel. repeat split. eapply select_rejected_status, Hsel.
Qed.

Lemma exports_empty (hours : Z) (loc : option (float * float)) :
  Routes.select_weather_data now args db = Routes.Selected hours loc [] ->
  Routes.export_pdf e now args db = Routes.no_data
  /\ Routes.export_excel workbook_error now args db = Routes.no_data
  /\ Routes.get_weather_data now args db = (200, Routes.DataBody hours loc []).
Proof.
  intros Hsel.
  unfold Routes.export_pdf, Routes.export_excel, Routes.get_weather_data.
  rewrite Hsel. repeat split.
Qed.

Lemma exports_nonempty (hours : Z) (loc : option (float * float))
    (w : WeatherData) (wd : list WeatherData) :
  Routes.select_weather_data now args db = Routes.Selected hours loc (w :: wd) ->
  (fst (Routes.export_pdf e now args db) = 200
   \/ fst (Routes.export_pdf e now args db) = 500)
  /\ (fst (Routes.export_excel workbook_error now args db) = 200
      \/ fst (Routes.export_excel workbook_error now args db) = 500)
  /\ Routes.get_weather_data now args db
     = (200, Routes.DataBody hours loc (w :: wd)).
Proof.
  intros Hsel.
  unfold Routes.export_pdf, Routes.export_excel, Routes.get_weather_data.
  rewrite Hsel. split; [|split; [|reflexivity]].
  - unfold Routes.send_pdf, Routes.pdf_failed.
    destruct (Routes.chart_error e); [auto|].
    destruct (Routes.tempfile_error e); [auto|].
    destruct (Routes.primary_fails e), (Routes.reportlab_error e),
      (Routes.send_file_error e); auto.
  - destruct workbook_error; auto.
Qed.

End ExportFacts.

(** X8.  The three endpoints that read the store refuse the same requests;
    the two exports answer 404 on the same requests, which are exactly those
    that [/weather-data] answers with 200 and an empty list; and a request
    answered 400 or 404 is answered before any rendering step is run, so the
    answer does not depend on them. *)
Theorem X8_read_endpoints_agree
    (e e' : Routes.pdf_steps) (workbook_error : option string)
    (now : datetime) (args : Routes.query_args) (db : db_state) :
  (fst (Routes.export_pdf e now args db) = 400
   <-> fst (Routes.get_weather_data now args db) = 400)
  /\ (fst (Routes.export_excel workbook_error now args db) = 400
      <-> fst (Routes.get_weather_data now args db) = 400)
  /\ (fst (Routes.export_pdf e now args db) = 404
      <-> fst (Routes.export_excel workbook_error now args db) = 404)
  /\ (fst (Routes.export_excel workbook_error now args db) = 404
      <-> exists hours loc,
            Routes.get_weather_data now args db
            = (200, Routes.DataBody hours loc []))
  /\ (fst (Routes.export_pdf e now args db) = 400
      \/ fst (Routes.export_pdf e now args db) = 404 ->
      Routes.export_pdf e' now args db = Routes.export_pdf e now args db).
Proof.
  rewrite export_pdf_400, export_excel_400, get_weather_data_400.
  split; [reflexivity|]. split; [reflexivity|].
  destruct (Routes.select_weather_data now args db) as [r|hours loc [|w wd]]
    eqn:Hsel.
  - destruct (exports_rejected e workbook_error now args db r Hsel)
      as (-> & -> & -> & Hr).
    destruct (exports_rejected e' workbook_error now args db r Hsel)
      as (-> & _).
    rewrite Hr. split; [split; discriminate|]. split; [|auto].
    split; [discriminate|].
    intros (hours & loc & H). rewrite H in Hr. discriminate.
  - destruct (exports_empty e workbook_error now args db hours loc Hsel)
      as (-> & -> & ->).
    destruct (exports_empty e' workbook_error now args db hours loc Hsel)
      as (-> & _).
    split; [split; reflexivity|]. split; [|auto].
    split; [eauto|reflexivity].
  - destruct (exports_nonempty e workbook_error now args db hours loc w wd Hsel)
      as (Hpdf & Hxls & ->).
    split; [|split].
    + split; intros H;
        [destruct Hpdf as [H'|H']|destruct Hxls as [H'|H']];
        rewrite H' in H; discriminate.
    + split.
      * intros H. destruct Hxls as [H'|H']; rewrite H' in H; discriminate.
      * intros (hours' & loc' & H). discriminate H.
    + intros [(r & H)|H]; [discriminate H|].
      destruct Hpdf as [H'|H']; rewrite H' in H; discriminate.
Qed.

Lemma X8_witness :
  Routes.export_pdf Examples.chart_breaks Examples.next_day
    (Examples.at_coordinates 91 8) Examples.db_after
  = Routes.export_pdf Examples.no_weasyprint Examples.next_day
      (Examples.at_coordinates 91 8) Examples.db_after.
Proof.
  apply (X8_read_endpoints_agree Examples.no_weasyprint Examples.chart_breaks
           None Examples.next_day (Examples.at_coordinates 91 8)
           Examples.db_after).
  left. vm_compute. reflexivity.
Defined.

(** ** The ingestion endpoint *)

Lemma lat_in_range_number (x : float) :
  Routes.lat_in_range x = true -> is_number x = true.
Proof.
  destruct x as [s|[|]| |s m e]; try reflexivity;
    vm_compute; intros H; discriminate H.
Qed.

Lemma lon_in_range_number (x : float) :
  Routes.lon_in_range x = true -> is_number x = true.
Proof.
  destruct x as [s|[|]| |s m e]; try reflexivity;
    vm_compute; intros H; discriminate H.
Qed.

(** X9.  [/weather-report], whatever the two services do.  It answers 400
    exactly when a coordinate is missing or out of range, and then without
    consulting either service and without touching the store.  Past
    validation the coordinates are numbers (never NaN or an infinity) and
    the archive is asked for two days.  If the fetch raises, the answer is
    500 "API fetch failed", the store is untouched and the storing service
    is not consulted.  The answer is 200 exactly when the fetch and the
    storing both return, and it then reports the number of records returned
    and the first five of them. *)
Theorem X9_weather_report
    (fetch : float -> float -> Z -> outcome json)
    (store : json -> float -> float -> db_state
             -> db_state * outcome (list WeatherData))
    (str : exn -> string) (lat lon : option float) (db : db_state) :
  let res := ReportRoute.get_weather_report fetch store str lat lon db in
  let invalid :=
    lat = None \/ lon = None
    \/ exists la lo, lat = Some la /\ lon = Some lo
         /\ (Routes.lat_in_range la = false \/ Routes.lon_in_range lo = false) in
  (fst (snd res) = 400 <-> invalid)
  /\ (invalid ->
      fst res = db
      /\ forall fetch' store' str',
           ReportRoute.get_weather_report fetch' store' str' lat lon db = res)
  /\ (~ invalid ->
      exists la lo,
        lat = Some la /\ lon = Some lo
        /\ is_number la = true /\ is_number lo = true
        /\ (forall e, fetch la lo 2 = Raise e ->
              res = (db, (500, ReportRoute.ReportError "API fetch failed" (str e)))
              /\ forall store',
                   ReportRoute.get_weather_report fetch store' str lat lon db
                   = res)
        /\ (fst (snd res) = 200 <->
            exists data db' recs,
              fetch la lo 2 = Return data
              /\ store data la lo db = (db', Return recs)
              /\ res = (db', (200, ReportRoute.ReportSummary (la, lo)
                                     (List.length recs)
                                     (ReportRoute.data_range_of recs)
                                     (firstn 5 recs))))).
Proof.
  cbv zeta. unfold ReportRoute.get_weather_report.
  destruct lat as [la|], lon as [lo|].
  2-4: (split; [split; [intros _; auto|reflexivity]|]);
       (split; [intros _; split; reflexivity|]);
       intros H; exfalso; apply H; auto.
  destruct (Routes.lat_in_range la) eqn:Hlat; simpl.
  2: { split; [split; [intros _|reflexivity]|].
       - right. right. exists la, lo. auto.
       - split; [intros _; split; [reflexivity|intros; reflexivity]|].
         intros H. exfalso. apply H. right. right. exists la, lo. auto. }
  destruct (Routes.lon_in_range lo) eqn:Hlon; simpl.
  2: { split; [split; [intros _|reflexivity]|].
       - right. right. exists la, lo. auto.
       - split; [intros _; split; [reflexivity|intros; reflexivity]|].
         intros H. exfalso. apply H. right. right. exists la, lo. auto. }
  assert (Hnot : ~ (Some la = None \/ Some lo = None
                    \/ exists la0 lo0, Some la = Some la0 /\ Some lo = Some lo0
                         /\ (Routes.lat_in_range la0 = false
                             \/ Routes.lon_in_range lo0 = false))).
  { intros [H|[H|(la0 & lo0 & [= <-] & [= <-] & [H|H])]];
      try discriminate; congruence. }
  split; [|split].
  - split; [|intros H; contradiction].
    destruct (fetch la lo 2) as [data|e]; [|discriminate].
    destruct (store data la lo db) as [db' [recs|e]]; discriminate.
  - intros H. contradiction.
  - intros _. exists la, lo.
    split; [reflexivity|]. split; [reflexivity|].
    split; [apply lat_in_range_number, Hlat|].
    split; [apply lon_in_range_number, Hlon|].
    split.
    + intros e He. rewrite He. split; [reflexivity|].
      intros store'. reflexivity.
    + destruct (fetch la lo 2) as [data|e].
      * destruct (store data la lo db) as [db' [recs|e]] eqn:Hst; simpl.
        -- split; [intros _|intros _; reflexivity].
           exists data, db', recs. repeat split. exact Hst.
        -- split; [discriminate|].
           intros (data' & db'' & recs & [= <-] & H & _). congruence.
      * simpl. split; [discriminate|].
        intros (data' & db'' & recs & H & _). discriminate H.
Qed.

Lemma X9_witness :
  ReportRoute.get_weather_report MoreExamples.fetch_down
    MoreExamples.store_decoded MoreExamples.message_of
    (Some Examples.lat47) None Examples.db_after
  = ReportRoute.get_weather_report MoreExamples.fetch_aligned
      MoreExamples.store_decoded MoreExamples.message_of
      (Some Examples.lat47) None Examples.db_after.
Proof.
  apply (proj1 (proj2 (X9_weather_report MoreExamples.fetch_aligned
                         MoreExamples.store_decoded MoreExamples.message_of
                         (Some Examples.lat47) None Examples.db_after))).
  right. left. reflexivity.
Defined.

(** ** The order of floats *)

Lemma lex_lt_irrefl (a : Z * Z * Z) : ~ lex_lt a a.
Proof. destruct a as [[a1 a2] a3]. unfold lex_lt. lia. Qed.

Lemma lex_lt_trans (a b c : Z * Z * Z) :
  lex_lt a b -> lex_lt b c -> lex_lt a c.
Proof.
  destruct a as [[a1 a2] a3], b as [[b1 b2] b3], c as [[c1 c2] c3].
  unfold lex_lt. lia.
Qed.

Lemma lex_lt_total (a b : Z * Z * Z) : lex_lt a b \/ a = b \/ lex_lt b a.
Proof.
  destruct a as [[a1 a2] a3], b as [[b1 b2] b3]. unfold lex_lt.
  destruct (Z.lt_trichotomy a1 b1) as [H|[H|H]];
  destruct (Z.lt_trichotomy a2 b2) as [H'|[H'|H']];
  destruct (Z.lt_trichotomy a3 b3) as [H''|[H''|H'']];
    subst; auto; try (left; lia); try (right; right; lia).
Qed.

Lemma SFcompare_finite_pos (m1 m2 : positive) (e1 e2 : Z) :
  match Z.compare e1 e2 with
  | Lt => Lt
  | Gt => Gt
  | Eq => Pos.compare_cont Eq m1 m2
  end = Lt <->
  e1 < e2 \/ (e1 = e2 /\ Z.pos m1 < Z.pos m2).
Proof.
  change (Pos.compare_cont Eq m1 m2) with (Pos.compare m1 m2).
  destruct (Z.compare_spec e1 e2) as [He|He|He];
    [destruct (Pos.compare_spec m1 m2) as [Hm|Hm|Hm]| |];
    split; intros H; try discriminate; try reflexivity; try lia.
Qed.

Lemma SFcompare_finite_neg (m1 m2 : positive) (e1 e2 : Z) :
  match Z.compare e1 e2 with
  | Lt => Gt
  | Gt => Lt
  | Eq => CompOpp (Pos.compare_cont Eq m1 m2)
  end = Lt <->
  - e1 < - e2 \/ (- e1 = - e2 /\ - Z.pos m1 < - Z.pos m2).
Proof.
  change (Pos.compare_cont Eq m1 m2) with (Pos.compare m1 m2).
  destruct (Z.compare_spec e1 e2) as [He|He|He];
    [destruct (Pos.compare_spec m1 m2) as [Hm|Hm|Hm]| |];
    simpl; split; intros H; try discriminate; try reflexivity; try lia.
Qed.

Ltac rank_case :=
  simpl; split;
  [ intros H; try discriminate H; repeat split; try reflexivity; lia
  | intros (H1 & H2 & H3); try discriminate H1; try discriminate H2;
    try reflexivity; lia ].

(** [x < y] on floats is the order of their ranks, NaN being below and
    above nothing. *)
Lemma SFltb_rank (x y : float) :
  SFltb x y = true <->
  is_nan x = false /\ is_nan y = false /\ lex_lt (rank x) (rank y).
Proof.
  unfold SFltb.
  destruct x as [[|]|[|]| |[|] mx ex], y as [[|]|[|]| |[|] my ey];
    try solve [rank_case].
  - cbn [SFcompare rank lex_lt is_nan].
    rewrite <- SFcompare_finite_neg.
    destruct (match (ex ?= ey) with
              | Eq => CompOpp (Pos.compare_cont Eq mx my)
              | Lt => Gt
              | Gt => Lt
              end);
      (split;
       [ intros H; try discriminate H; repeat split; right; split; reflexivity
       | intros (_ & _ & [H|[_ H]]); [lia | try discriminate H; reflexivity] ]).
  - cbn [SFcompare rank lex_lt is_nan].
    rewrite <- SFcompare_finite_pos.
    destruct (match (ex ?= ey) with
              | Eq => Pos.compare_cont Eq mx my
              | Lt => Lt
              | Gt => Gt
              end);
      (split;
       [ intros H; try discriminate H; repeat split; right; split; reflexivity
       | intros (_ & _ & [H|[_ H]]); [lia | try discriminate H; reflexivity] ]).
Qed.

Lemma SFcompare_finite_pos_le (m1 m2 : positive) (e1 e2 : Z) (c : comparison) :
  c = match Z.compare e1 e2 with
      | Lt => Lt
      | Gt => Gt
      | Eq => Pos.compare_cont Eq m1 m2
      end ->
  (c <> Gt <-> ~ (e2 < e1 \/ (e2 = e1 /\ Z.pos m2 < Z.pos m1))).
Proof.
  change (Pos.compare_cont Eq m1 m2) with (Pos.compare m1 m2).
  intros ->.
  destruct (Z.compare_spec e1 e2) as [He|He|He];
    [destruct (Pos.compare_spec m1 m2) as [Hm|Hm|Hm]| |];
    split; intros H; try congruence; try lia; exfalso; apply H; lia.
Qed.

Lemma SFcompare_finite_neg_le (m1 m2 : positive) (e1 e2 : Z) (c : comparison) :
  c = match Z.compare e1 e2 with
      | Lt => Gt
      | Gt => Lt
      | Eq => CompOpp (Pos.compare_cont Eq m1 m2)
      end ->
  (c <> Gt <-> ~ (- e2 < - e1 \/ (- e2 = - e1 /\ - Z.pos m2 < - Z.pos m1))).
Proof.
  change (Pos.compare_cont Eq m1 m2) with (Pos.compare m1 m2).
  intros ->.
  destruct (Z.compare_spec e1 e2) as [He|He|He];
    [destruct (Pos.compare_spec m1 m2) as [Hm|Hm|Hm]| |];
    simpl; split; intros H; try congruence; try lia; exfalso; apply H; lia.
Qed.

Ltac leb_case Hc :=
  match type of Hc with
  | _ <-> ~ ?P =>
      split;
      [ intros H; try discriminate H;
        pose proof (proj1 Hc ltac:(discriminate)) as HP;
        repeat split; lia
      | intros (_ & _ & H); try reflexivity;
        assert (Hn : ~ ~ P)
          by (intros HnP; apply (proj2 Hc HnP); reflexivity);
        lia ]
  end.

(** [x <= y] on floats: neither is NaN and [y] does not rank below [x]. *)
Lemma SFleb_rank (x y : float) :
  SFleb x y = true <->
  is_nan x = false /\ is_nan y = false /\ ~ lex_lt (rank y) (rank x).
Proof.
  unfold SFleb.
  destruct x as [[|]|[|]| |[|] mx ex], y as [[|]|[|]| |[|] my ey];
    try solve [rank_case].
  - cbn [SFcompare rank lex_lt is_nan].
    pose proof (SFcompare_finite_neg_le mx my ex ey _ eq_refl) as Hc.
    destruct (match (ex ?= ey) with
              | Eq => CompOpp (Pos.compare_cont Eq mx my)
              | Lt => Gt
              | Gt => Lt
              end); leb_case Hc.
  - cbn [SFcompare rank lex_lt is_nan].
    pose proof (SFcompare_finite_pos_le mx my ex ey _ eq_refl) as Hc.
    destruct (match (ex ?= ey) with
              | Eq => Pos.compare_cont Eq mx my
              | Lt => Lt
              | Gt => Gt
              end); leb_case Hc.
Qed.

(** ** [min] and [max] *)

Section MinMax.

Variable A : Type.
Variable lt : A -> A -> bool.
Hypothesis lt_irrefl : forall a, lt a a = false.
(** Below a new minimum nothing that was not below the old one. *)
Hypothesis lt_lower : forall x y b,
  lt x b = true -> lt y b = false -> lt y x = false.
Hypothesis lt_upper : forall x y b,
  lt b x = true -> lt b y = false -> lt x y = false.

Lemma min_from_in (l : list A) :
  forall best, In (ReportStats.min_from lt best l) (best :: l).
Proof.
  induction l as [|x l IH]; intros best; simpl; [auto|].
  destruct (IH (if lt x best then x else best)) as [H|H]; [|auto].
  destruct (lt x best); auto.
Qed.

Lemma max_from_in (l : list A) :
  forall best, In (ReportStats.max_from lt best l) (best :: l).
Proof.
  induction l as [|x l IH]; intros best; simpl; [auto|].
  destruct (IH (if lt best x then x else best)) as [H|H]; [|auto].
  destruct (lt best x); auto.
Qed.

Lemma min_from_lower (l : list A) :
  forall best seen,
    (forall y, In y seen -> lt y best = false) ->
    forall y, In y (seen ++ l) ->
              lt y (ReportStats.min_from lt best l) = false.
Proof.
  induction l as [|x l IH]; intros best seen Hseen y Hy; simpl.
  - rewrite app_nil_r in Hy. auto.
  - apply (IH _ (seen ++ [x])).
    + intros z Hz. apply in_app_iff in Hz.
      destruct (lt x best) eqn:Hx.
      * destruct Hz as [Hz|[<-|[]]]; [|apply lt_irrefl].
        apply (lt_lower x z best Hx). auto.
      * destruct Hz as [Hz|[<-|[]]]; auto.
    + rewrite <- app_assoc. exact Hy.
Qed.

Lemma max_from_upper (l : list A) :
  forall best seen,
    (forall y, In y seen -> lt best y = false) ->
    forall y, In y (seen ++ l) ->
              lt (ReportStats.max_from lt best l) y = false.
Proof.
  induction l as [|x l IH]; intros best seen Hseen y Hy; simpl.
  - rewrite app_nil_r in Hy. auto.
  - apply (IH _ (seen ++ [x])).
    + intros z Hz. apply in_app_iff in Hz.
      destruct (lt best x) eqn:Hx.
      * destruct Hz as [Hz|[<-|[]]]; [|apply lt_irrefl].
        apply (lt_upper x z best Hx). auto.
      * destruct Hz as [Hz|[<-|[]]]; auto.
    + rewrite <- app_assoc. exact Hy.
Qed.

Lemma py_min_spec (l : list A) (m : A) :
  ReportStats.py_min lt l = Return m ->
  In m l /\ forall y, In y l -> lt y m = false.
Proof.
  destruct l as [|x l]; simpl; [discriminate|]. intros [= <-]. split.
  - apply min_from_in.
  - intros y Hy. apply (min_from_lower l x [x]); [|exact Hy].
    intros z [<-|[]]. apply lt_irrefl.
Qed.

Lemma py_max_spec (l : list A) (m : A) :
  ReportStats.py_max lt l = Return m ->
  In m l /\ forall y, In y l -> lt m y = false.
Proof.
  destruct l as [|x l]; simpl; [discriminate|]. intros [= <-]. split.
  - apply max_from_in.
  - intros y Hy. apply (max_from_upper l x [x]); [|exact Hy].
    intros z [<-|[]]. apply lt_irrefl.
Qed.

End MinMax.

Lemma float_lt_irrefl (a : float) : ReportStats.float_lt a a = false.
Proof.
  unfold ReportStats.float_lt.
  destruct (SFltb a a) eqn:H; [|reflexivity].
  apply SFltb_rank in H. destruct H as (_ & _ & H).
  apply lex_lt_irrefl in H. contradiction.
Qed.

Lemma float_lt_lower (x y b : float) :
  ReportStats.float_lt x b = true -> ReportStats.float_lt y b = false ->
  ReportStats.float_lt y x = false.
Proof.
  unfold ReportStats.float_lt. intros Hx Hy.
  destruct (SFltb y x) eqn:Hyx; [|reflexivity].
  apply SFltb_rank in Hx, Hyx.
  destruct Hx as (_ & Hb & Hx), Hyx as (Hyn & _ & Hyx).
  assert (SFltb y b = true); [|congruence].
  apply SFltb_rank. repeat split; auto. eapply lex_lt_trans; eauto.
Qed.

Lemma float_lt_upper (x y b : float) :
  ReportStats.float_lt b x = true -> ReportStats.float_lt b y = false ->
  ReportStats.float_lt x y = false.
Proof.
  unfold ReportStats.float_lt. intros Hx Hy.
  destruct (SFltb x y) eqn:Hxy; [|reflexivity].
  apply SFltb_rank in Hx, Hxy.
  destruct Hx as (Hb & _ & Hx), Hxy as (_ & Hyn & Hxy).
  assert (SFltb b y = true); [|congruence].
  apply SFltb_rank. repeat split; auto. eapply lex_lt_trans; eauto.
Qed.

(** Without NaN, "not below" is "at least". *)
Lemma float_not_lt_le (x y : float) :
  is_nan x = false -> is_nan y = false ->
  ReportStats.float_lt x y = false -> float_le y x = true.
Proof.
  unfold ReportStats.float_lt, float_le. intros Hx Hy Hlt.
  apply SFleb_rank. repeat split; auto.
  intros H. assert (SFltb x y = true); [|congruence].
  apply SFltb_rank. auto.
Qed.

(** ** The statistics of a report *)

Lemma summarize_cons (w : WeatherData) (wd : list WeatherData) :
  ReportStats.summarize (w :: wd)
  = Return
      {| ReportStats.temp_min :=
           ReportStats.min_from ReportStats.float_lt (temperature_2m w)
             (map temperature_2m wd);
         ReportStats.temp_max :=
           ReportStats.max_from ReportStats.float_lt (temperature_2m w)
             (map temperature_2m wd);
         ReportStats.hum_min :=
           ReportStats.min_from ReportStats.float_lt (relative_humidity_2m w)
             (map relative_humidity_2m wd);
         ReportStats.hum_max :=
           ReportStats.max_from ReportStats.float_lt (relative_humidity_2m w)
             (map relative_humidity_2m wd);
         ReportStats.start_time :=
           ReportStats.min_from Z.ltb (timestamp w) (map timestamp wd);
         ReportStats.end_time :=
           ReportStats.max_from Z.ltb (timestamp w) (map timestamp wd);
         ReportStats.total_records := S (List.length wd) |}.
Proof. reflexivity. Qed.

Lemma Z_ltb_lower (x y b : Z) :
  (x <? b) = true -> (y <? b) = false -> (y <? x) = false.
Proof. rewrite Z.ltb_lt, !Z.ltb_ge. lia. Qed.

Lemma Z_ltb_upper (x y b : Z) :
  (b <? x) = true -> (b <? y) = false -> (x <? y) = false.
Proof. rewrite Z.ltb_lt, !Z.ltb_ge. lia. Qed.

Lemma last_cons_default (A : Type) (l : list A) :
  forall x d d', last (x :: l) d = last (x :: l) d'.
Proof.
  induction l as [|y l IH]; intros x d d'; [reflexivity|].
  change (last (y :: l) d = last (y :: l) d'). apply IH.
Qed.

Lemma sorted_last (w : WeatherData) (wd : list WeatherData) :
  StronglySorted by_timestamp (w :: wd) ->
  forall r, In r (w :: wd) -> timestamp r <= timestamp (last (w :: wd) w).
Proof.
  revert w. induction wd as [|x wd IH]; intros w Hs r Hr.
  - destruct Hr as [<-|[]]. simpl. lia.
  - inversion Hs as [|? ? Hs' Hall]; subst.
    change (last (w :: x :: wd) w) with (last (x :: wd) w).
    rewrite (last_cons_default _ wd x w x).
    destruct Hr as [<-|Hr].
    + inversion Hall as [|? ? Hwx _]; subst. unfold by_timestamp in Hwx.
      specialize (IH x Hs' x (or_introl eq_refl)). lia.
    + apply IH; assumption.
Qed.

(** X10.  The statistics of a report cannot be computed for no rows: [min]
    raises a [ValueError] on the empty list (the exports answer 404 before
    they get there).  For one row or more they are computed, the record
    count is the number of rows, and the data period holds every row's
    timestamp, both of its ends being the timestamp of a row; on rows sorted
    by timestamp, as the queries return them, the period runs from the
    first row to the last. *)
Theorem X10_report_period (wd : list WeatherData) :
  (wd = [] ->
   exists msg, ReportStats.summarize wd = Raise (ValueError msg))
  /\ (forall w rest, wd = w :: rest ->
        exists st,
          ReportStats.summarize wd = Return st
          /\ ReportStats.total_records st = List.length wd
          /\ (forall r, In r wd ->
                ReportStats.start_time st <= timestamp r
                /\ timestamp r <= ReportStats.end_time st)
          /\ (exists r, In r wd /\ timestamp r = ReportStats.start_time st)
          /\ (exists r, In r wd /\ timestamp r = ReportStats.end_time st)
          /\ (StronglySorted by_timestamp wd ->
              ReportStats.start_time st = timestamp w
              /\ ReportStats.end_time st = timestamp (last wd w))).
Proof.
  split; [intros ->; eexists; reflexivity|].
  intros w rest ->. rewrite summarize_cons. eexists. split; [reflexivity|].
  cbn [ReportStats.total_records ReportStats.start_time ReportStats.end_time].
  set (lo := ReportStats.min_from Z.ltb (timestamp w) (map timestamp rest)).
  set (hi := ReportStats.max_from Z.ltb (timestamp w) (map timestamp rest)).
  pose proof (py_min_spec Z Z.ltb Z.ltb_irrefl Z_ltb_lower
                (map timestamp (w :: rest)) lo eq_refl) as [Hmin_in Hmin].
  pose proof (py_max_spec Z Z.ltb Z.ltb_irrefl Z_ltb_upper
                (map timestamp (w :: rest)) hi eq_refl) as [Hmax_in Hmax].
  assert (Hbounds : forall r, In r (w :: rest) ->
                      lo <= timestamp r /\ timestamp r <= hi).
  { intros r Hr. apply (in_map timestamp) in Hr.
    pose proof (Hmin _ Hr) as H1. pose proof (Hmax _ Hr) as H2.
    apply Z.ltb_ge in H1, H2. lia. }
  apply in_map_iff in Hmin_in, Hmax_in.
  destruct Hmin_in as (rlo & Hrlo & Hrlo_in).
  destruct Hmax_in as (rhi & Hrhi & Hrhi_in).
  split; [reflexivity|]. split; [exact Hbounds|].
  split; [eauto|]. split; [eauto|].
  intros Hsorted. split.
  - inversion Hsorted as [|? ? _ Hall]; subst.
    destruct (Hbounds w (or_introl eq_refl)) as [H1 _].
    destruct Hrlo_in as [<-|Hin]; [lia|].
    rewrite Forall_forall in Hall. specialize (Hall rlo Hin).
    unfold by_timestamp in Hall. lia.
  - pose proof (sorted_last w rest Hsorted rhi Hrhi_in) as H1.
    assert (Hlast : In (last (w :: rest) w) (w :: rest)).
    { destruct (exists_last (l := w :: rest)) as (l' & a & E);
        [discriminate|]. rewrite E, last_last. apply in_or_app.
      right. left. reflexivity. }
    destruct (Hbounds _ Hlast) as [_ H2]. lia.
Qed.

Lemma X10_witness :
  exists st,
    ReportStats.summarize (session Examples.db_after) = Return st
    /\ ReportStats.start_time st = Examples.midnight.
Proof.
  destruct (proj2 (X10_report_period (session Examples.db_after))
              Examples.row_midnight
              [ {| id := 2; timestamp := Examples.midnight + 3600000000;
                   latitude := Examples.lat47; longitude := Examples.lon8;
                   temperature_2m := float_of_Z 2;
                   relative_humidity_2m := float_of_Z 60;
                   created_at := 8 |} ])
    as (st & Hst & _ & _ & _ & _ & Hsorted).
  - vm_compute. reflexivity.
  - exists st. split; [exact Hst|].
    apply Hsorted. vm_compute. repeat constructor; discriminate.
Defined.

(** X11.  The temperature and humidity extremes of a report are values of
    its rows; no row is below the minimum or above the maximum; and when no
    measurement is NaN, the minimum is at most, and the maximum at least,
    every row's value (so the minimum is at most the maximum). *)
Theorem X11_report_extremes (wd : list WeatherData) (st : ReportStats.statistics) :
  ReportStats.summarize wd = Return st ->
  (exists r, In r wd /\ temperature_2m r = ReportStats.temp_min st)
  /\ (exists r, In r wd /\ temperature_2m r = ReportStats.temp_max st)
  /\ (exists r, In r wd /\ relative_humidity_2m r = ReportStats.hum_min st)
  /\ (exists r, In r wd /\ relative_humidity_2m r = ReportStats.hum_max st)
  /\ (forall r, In r wd ->
        ReportStats.float_lt (temperature_2m r) (ReportStats.temp_min st) = false
        /\ ReportStats.float_lt (ReportStats.temp_max st) (temperature_2m r) = false
        /\ ReportStats.float_lt (relative_humidity_2m r) (ReportStats.hum_min st)
           = false
        /\ ReportStats.float_lt (ReportStats.hum_max st) (relative_humidity_2m r)
           = false)
  /\ ((forall r, In r wd -> is_nan (temperature_2m r) = false) ->
      float_le (ReportStats.temp_min st) (ReportStats.temp_max st) = true
      /\ forall r, In r wd ->
           float_le (ReportStats.temp_min st) (temperature_2m r) = true
           /\ float_le (temperature_2m r) (ReportStats.temp_max st) = true)
  /\ ((forall r, In r wd -> is_nan (relative_humidity_2m r) = false) ->
      float_le (ReportStats.hum_min st) (ReportStats.hum_max st) = true
      /\ forall r, In r wd ->
           float_le (ReportStats.hum_min st) (relative_humidity_2m r) = true
           /\ float_le (relative_humidity_2m r) (ReportStats.hum_max st) = true).
Proof.
  destruct wd as [|w rest]; [discriminate|].
  rewrite summarize_cons. intros [= <-].
  cbn [ReportStats.temp_min ReportStats.temp_max ReportStats.hum_min
       ReportStats.hum_max].
  assert (Hext : forall f : WeatherData -> float,
    let lo := ReportStats.min_from ReportStats.float_lt (f w) (map f rest) in
    let hi := ReportStats.max_from ReportStats.float_lt (f w) (map f rest) in
    (exists r, In r (w :: rest) /\ f r = lo)
    /\ (exists r, In r (w :: rest) /\ f r = hi)
    /\ (forall r, In r (w :: rest) ->
          ReportStats.float_lt (f r) lo = false
          /\ ReportStats.float_lt hi (f r) = false)
    /\ ((forall r, In r (w :: rest) -> is_nan (f r) = false) ->
        float_le lo hi = true
        /\ forall r, In r (w :: rest) ->
             float_le lo (f r) = true /\ float_le (f r) hi = true)).
  { intros f lo hi.
    pose proof (py_min_spec float ReportStats.float_lt float_lt_irrefl
                  float_lt_lower (map f (w :: rest)) lo eq_refl)
      as [Hmin_in Hmin].
    pose proof (py_max_spec float ReportStats.float_lt float_lt_irrefl
                  float_lt_upper (map f (w :: rest)) hi eq_refl)
      as [Hmax_in Hmax].
    apply in_map_iff in Hmin_in, Hmax_in.
    destruct Hmin_in as (rlo & Hrlo & Hrlo_in).
    destruct Hmax_in as (rhi & Hrhi & Hrhi_in).
    assert (Hb : forall r, In r (w :: rest) ->
                   ReportStats.float_lt (f r) lo = false
                   /\ ReportStats.float_lt hi (f r) = false).
    { intros r Hr. apply (in_map f) in Hr. auto. }
    split; [eauto|]. split; [eauto|]. split; [exact Hb|].
    intros Hnan.
    assert (Hlo : is_nan lo = false) by (rewrite <- Hrlo; auto).
    assert (Hhi : is_nan hi = false) by (rewrite <- Hrhi; auto).
    split.
    - apply float_not_lt_le; auto.
      rewrite <- Hrlo. apply (proj2 (Hb rlo Hrlo_in)).
    - intros r Hr. destruct (Hb r Hr) as [H1 H2].
      split; apply float_not_lt_le; auto. }
  destruct (Hext temperature_2m) as (T1 & T2 & T3 & T4).
  destruct (Hext relative_humidity_2m) as (H1 & H2 & H3 & H4).
  cbv zeta in *.
  split; [exact T1|]. split; [exact T2|]. split; [exact H1|].
  split; [exact H2|]. split; [|split; assumption].
  intros r Hr. destruct (T3 r Hr), (H3 r Hr). auto.
Qed.

Lemma X11_witness :
  exists r,
    In r (session Examples.db_after)
    /\ temperature_2m r = float_of_Z 1.
Proof.
  apply (proj1 (X11_report_extremes (session Examples.db_after)
                  {| ReportStats.temp_min := float_of_Z 1;
                     ReportStats.temp_max := float_of_Z 2;
                     ReportStats.hum_min := float_of_Z 50;
                     ReportStats.hum_max := float_of_Z 60;
                     ReportStats.start_time := Examples.midnight;
                     ReportStats.end_time := Examples.midnight + 3600000000;
                     ReportStats.total_records := 2 |}
                  ltac:(vm_compute; reflexivity))).
Defined.

(** ** One row per hour at a location *)

Lemma strictly_sorted_at_location (lat lon : float) (l : list WeatherData) :
  (forall r, In r l ->
     column_eq (latitude r) lat = true /\ column_eq (longitude r) lon = true) ->
  unique_triples l = true ->
  StronglySorted by_timestamp l ->
  StronglySorted (fun a b => timestamp a < timestamp b) l.
Proof.
  induction l as [|a l IH]; intros Hloc Hu Hs; [constructor|].
  apply unique_triples_cons_inv in Hu. destruct Hu as [Hall Hu].
  inversion Hs as [|? ? Hs' Hle]; subst.
  constructor.
  - apply IH; auto. intros r Hr. apply Hloc. right. exact Hr.
  - rewrite Forall_forall in *. intros r Hr.
    specialize (Hle r Hr). unfold by_timestamp in Hle.
    destruct (Z.eq_dec (timestamp a) (timestamp r)) as [E|E]; [|lia].
    exfalso.
    destruct (Hloc a (or_introl eq_refl)) as [Ha1 Ha2].
    destruct (Hloc r (or_intror Hr)) as [Hr1 Hr2].
    pose proof (Hall r Hr) as Hdiff.
    rewrite (key_matches_same_triple (timestamp a) lat lon a r) in Hdiff;
      [discriminate| |].
    + unfold key_matches. rewrite Z.eqb_refl, Ha1, Ha2. reflexivity.
    + unfold key_matches. rewrite E, Z.eqb_refl, Hr1, Hr2. reflexivity.
Qed.

(** X12.  On a store that holds at most one row per (timestamp, latitude,
    longitude), the location query returns a proper time series: its
    timestamps are strictly increasing, so no hour comes twice. *)
Theorem X12_location_series_strict (now : datetime) (lat lon : float)
    (hours : Z) (db : db_state) :
  unique_triples (session db) = true ->
  StronglySorted (fun a b => timestamp a < timestamp b)
    (snd (WeatherService.get_weather_data_by_location now lat lon hours db)).
Proof.
  intros Hu. simpl. apply (strictly_sorted_at_location lat lon).
  - intros r. rewrite order_by_timestamp_in, filter_In, !andb_true_iff. tauto.
  - eapply unique_triples_perm; [apply order_by_timestamp_perm|].
    apply unique_triples_filter, Hu.
  - apply order_by_timestamp_sorted.
Qed.

Lemma X12_witness :
  StronglySorted (fun a b => timestamp a < timestamp b)
    (snd (WeatherService.get_weather_data_by_location
            Examples.next_day Examples.lat47 Examples.lon8 48
            Examples.db_after)).
Proof.
  apply (X12_location_series_strict Examples.next_day Examples.lat47
           Examples.lon8 48 Examples.db_after).
  vm_compute. reflexivity.
Defined.
